(** * spenser: session resolution and the shared status record

    A shallow embedding of [main.ts].  The handlers are asynchronous
    TypeScript functions that read and write a cookie, one file on disk and
    the response under construction, call the identity provider over the
    network, and may throw.  They are embedded as computations in a state
    and exception monad over a [World]; everything the program cannot decide
    by itself (the provider's answers, the clock) is an oracle in [Env]. *)

From Stdlib Require Import String List ZArith Arith Lia DecimalString.
Import ListNotations.
Open Scope string_scope.
Open Scope list_scope.
Local Set Warnings "-register-all".

(** ** JSON values and texts *)

(** The values [JSON.parse] can produce.  [expiresIn] is the only number the
    program handles and it is an integer count of seconds. *)
Inductive json : Type :=
| JNull
| JBool (b : bool)
| JNum (n : Z)
| JStr (s : string)
| JArr (items : list json)
| JObj (fields : list (string * json)).

(** A text (cookie value, file content, HTTP body) is represented by what
    [JSON.parse] makes of it: the value it denotes, or nothing when it is not
    valid JSON.  White space and indentation are not represented, so
    [JSON.stringify(data)] and [JSON.stringify(data, null, 2)] coincide. *)
Inductive text : Type :=
| Json (v : json)
| NotJson (raw : string).

Definition JSON_stringify (v : json) : text := Json v.

Inductive error : Type :=
| SyntaxError
| TypeError
| NotFound
| PermissionDenied
| FetchFailed
| ProviderError
| Error (message : string).

Inductive result (A : Type) : Type :=
| Ok (a : A)
| Throw (e : error).
Arguments Ok {A} a.
Arguments Throw {A} e.

(** ** Data of the program *)

(** [type Tokens] *)
Record Tokens : Type := mkTokens {
  accessToken : string;
  tokenType : string;
  expiresIn : Z;
  refreshToken : string
}.

Definition tokens_json (t : Tokens) : json :=
  JObj [("accessToken", JStr (accessToken t));
        ("tokenType", JStr (tokenType t));
        ("expiresIn", JNum (expiresIn t));
        ("refreshToken", JStr (refreshToken t))].

(** [type Me]; the field holds whatever the provider sent under
    [first_name], [None] standing for [undefined]. *)
Record Me : Type := mkMe { first_name : option json }.

(** [type Status], as the object literal of [status.read] builds it. *)
Definition status_json (emptied cleaned : string) : json :=
  JObj [("last_emptied", JStr emptied); ("last_cleaned", JStr cleaned)].

Definition message_json (m : string) : json := JObj [("message", JStr m)].

Inductive Method : Type := GET | POST | PUT | DELETE | PATCH | HEAD | OPTIONS.

Record Request : Type := mkRequest {
  method : Method;
  url : string;
  key : string        (* ctx.params.key *)
}.

(** What a handler may assign to [ctx.response.body]. *)
Inductive Body : Type :=
| BodyJson (v : json)
| BodyMe (me : Me)
| BodyRedirect (target : string).   (* the note written by response.redirect *)

Record Response : Type := mkResponse {
  status : option nat;              (* None: never assigned *)
  body : option Body;               (* None: never assigned *)
  location : option string
}.

Definition empty_response : Response := mkResponse None None None.

(** The status the framework sends for a response whose status was never
    assigned: 200 with a body, 404 without. *)
Definition sent_status (r : Response) : nat :=
  match status r, body r with
  | Some s, _ => s
  | None, Some _ => 200
  | None, None => 404
  end.

(** Outbound calls to the provider, in the order they are made. *)
Inductive event : Type :=
| EvProfile (bearer : option json)
| EvRefresh (token : option json)
| EvExchange (requestUrl : string) (codeVerifier : string).

Inductive file_state : Type :=
| Missing
| Present (content : text)
| Unreadable.                       (* any storage fault other than NotFound *)

Record World : Type := mkWorld {
  cookie : option text;             (* the "tokens" cookie *)
  pending : option json;            (* session value flashed as "codeVerifier" *)
  disk : file_state;                (* /data/status.json *)
  writable : bool;                  (* whether /data accepts writes *)
  ticks : nat;                      (* clock readings taken so far *)
  calls : list event;               (* provider calls made so far *)
  response : Response               (* ctx.response *)
}.

Inductive fetch_result : Type :=
| FetchError                                   (* fetch rejects *)
| Fetched (code : nat) (payload : text).

(** The environment: the clock and the provider.  The provider's answer may
    depend on every call it has received before. *)
Record Env : Type := mkEnv {
  now : nat -> string;                                   (* n-th [new Date().toISOString()] *)
  profile : list event -> option json -> fetch_result;   (* GET /api/v1/profiles/me *)
  refresh : list event -> option json -> option Tokens;  (* None: the call throws *)
  exchange : list event -> string -> string -> option Tokens
}.

(** ** The monad *)

Definition M (A : Type) : Type := World -> result A * World.

Definition ret {A} (a : A) : M A := fun w => (Ok a, w).

Definition throw {A} (e : error) : M A := fun w => (Throw e, w).

Definition bind {A B} (m : M A) (k : A -> M B) : M B :=
  fun w =>
    match m w with
    | (Ok a, w') => k a w'
    | (Throw e, w') => (Throw e, w')
    end.

(** [try { m } catch (error) { h error }]: effects made before the throw
    stay. *)
Definition try_catch {A} (m : M A) (h : error -> M A) : M A :=
  fun w =>
    match m w with
    | (Ok a, w') => (Ok a, w')
    | (Throw e, w') => h e w'
    end.

Definition modify (f : World -> World) : M unit := fun w => (Ok tt, f w).

Declare Scope js_scope.
Delimit Scope js_scope with js.
Notation "x <- c ;; k" := (bind c (fun x => k))
  (at level 100, c at next level, right associativity) : js_scope.
Notation "c ;; k" := (bind c (fun _ => k))
  (at level 100, right associativity) : js_scope.
Open Scope js_scope.

(** ** Field updates of the world *)

Definition with_cookie (c : option text) (w : World) : World :=
  mkWorld c (pending w) (disk w) (writable w) (ticks w) (calls w) (response w).

Definition with_pending (p : option json) (w : World) : World :=
  mkWorld (cookie w) p (disk w) (writable w) (ticks w) (calls w) (response w).

Definition with_disk (d : file_state) (w : World) : World :=
  mkWorld (cookie w) (pending w) d (writable w) (ticks w) (calls w) (response w).

Definition with_ticks (n : nat) (w : World) : World :=
  mkWorld (cookie w) (pending w) (disk w) (writable w) n (calls w) (response w).

Definition with_calls (l : list event) (w : World) : World :=
  mkWorld (cookie w) (pending w) (disk w) (writable w) (ticks w) l (response w).

Definition with_response (r : Response) (w : World) : World :=
  mkWorld (cookie w) (pending w) (disk w) (writable w) (ticks w) (calls w) r.

(** ** Runtime and framework primitives *)

Definition JSON_parse (t : text) : M json :=
  match t with
  | Json v => ret v
  | NotJson _ => throw SyntaxError
  end.

Fixpoint lookup (k : string) (fields : list (string * json)) : option json :=
  match fields with
  | [] => None
  | (k', v) :: rest => if String.eqb k k' then Some v else lookup k rest
  end.

(** [v.name] for the names the program reads ([accessToken], [refreshToken],
    [first_name]): the field of an object, [undefined] on a value that is not
    an object, and a [TypeError] on [null]. *)
Definition field_of (v : json) (name : string) : option json :=
  match v with
  | JObj fields => lookup name fields
  | _ => None
  end.

Definition get_field (v : json) (name : string) : M (option json) :=
  match v with
  | JNull => throw TypeError
  | _ => ret (field_of v name)
  end.

Definition index_key (i : nat) : string := NilEmpty.string_of_uint (Nat.to_uint i).

Fixpoint indexed {A} (f : A -> json) (i : nat) (l : list A) : list (string * json) :=
  match l with
  | [] => []
  | a :: rest => (index_key i, f a) :: indexed f (S i) rest
  end.

Fixpoint chars (s : string) : list string :=
  match s with
  | EmptyString => []
  | String c rest => String c EmptyString :: chars rest
  end.

(** The own enumerable properties of a value, in enumeration order. *)
Definition own_entries (v : json) : list (string * json) :=
  match v with
  | JObj fields => fields
  | JArr items => indexed (fun x => x) 0 items
  | JStr s => indexed JStr 0 (chars s)
  | _ => []
  end.

Definition Object_keys (v : json) : M (list string) :=
  match v with
  | JNull => throw TypeError
  | _ => ret (map fst (own_entries v))
  end.

(** [new Set(keys).has(k)] *)
Definition has (keys : list string) (k : string) : bool := existsb (String.eqb k) keys.

(** Assignment of one property: an existing property keeps its place, a new
    one goes last.  The handler only ever assigns a key that is present. *)
Fixpoint assign (k : string) (v : json) (fields : list (string * json))
  : list (string * json) :=
  match fields with
  | [] => [(k, v)]
  | (k', v') :: rest =>
      if String.eqb k k' then (k', v) :: rest else (k', v') :: assign k v rest
  end.

(** [{...cur, [k]: v}] *)
Definition spread_with (cur : json) (k : string) (v : json) : json :=
  JObj (assign k v (own_entries cur)).

(** Modelled from the spec: the cookie store behind [ctx.cookies], which is
    the framework's and not in the repository.  A [set] overwrites any prior
    value, a [get] reads the value now stored, [delete] removes it and is
    harmless when nothing is stored. *)
Definition cookies_get : M (option text) := fun w => (Ok (cookie w), w).

Definition cookies_set (t : text) : M unit := modify (with_cookie (Some t)).

Definition cookies_delete : M unit := modify (with_cookie None).

(** Modelled from the spec: the session value flashed at login, which is the
    session library's and not in the repository; reading it consumes it. *)
Definition session_get_codeVerifier : M (option json) :=
  fun w => (Ok (pending w), with_pending None w).

Definition set_status (s : nat) : M unit :=
  modify (fun w => with_response
    (mkResponse (Some s) (body (response w)) (location (response w))) w).

Definition set_body (b : Body) : M unit :=
  modify (fun w => with_response
    (mkResponse (status (response w)) (Some b) (location (response w))) w).

(** [ctx.response.redirect(target)]: a 302 unless a redirect status is
    already set, the Location header, and a short note as body. *)
Definition is_redirect_status (s : nat) : bool :=
  existsb (Nat.eqb s) [300; 301; 302; 303; 305; 307; 308]%nat.

Definition redirect (target : string) : M unit :=
  modify (fun w =>
    let st := match status (response w) with
              | Some s => if is_redirect_status s then s else 302%nat
              | None => 302%nat
              end in
    with_response (mkResponse (Some st) (Some (BodyRedirect target)) (Some target)) w).

Definition Deno_readTextFile : M text :=
  fun w =>
    match disk w with
    | Missing => (Throw NotFound, w)
    | Present t => (Ok t, w)
    | Unreadable => (Throw PermissionDenied, w)
    end.

Definition Deno_mkdir : M unit :=
  fun w => if writable w then (Ok tt, w) else (Throw PermissionDenied, w).

Definition Deno_writeTextFile (t : text) : M unit :=
  fun w =>
    if writable w then (Ok tt, with_disk (Present t) w)
    else (Throw PermissionDenied, w).

(** ** The program *)

Section Program.

Variable env : Env.

(** [new Date().toISOString()]: one reading of the clock. *)
Definition Date_now : M string :=
  fun w => (Ok (now env (ticks w)), with_ticks (S (ticks w)) w).

(** [new Date("2026-01-29T15:32:41.000Z").toISOString()] *)
Definition update_timestamp : string := "2026-01-29T15:32:41.000Z".

(** [fetch(".../api/v1/profiles/me", { headers: { Authorization } })] *)
Definition fetch_profile (bearer : option json) : M (nat * text) :=
  fun w =>
    let w' := with_calls (calls w ++ [EvProfile bearer]) w in
    match profile env (calls w) bearer with
    | FetchError => (Throw FetchFailed, w')
    | Fetched code payload => (Ok (code, payload), w')
    end.

(** [oauth2Client.refreshToken.refresh(refreshToken)] *)
Definition oauth_refresh (token : option json) : M Tokens :=
  fun w =>
    let w' := with_calls (calls w ++ [EvRefresh token]) w in
    match refresh env (calls w) token with
    | Some t => (Ok t, w')
    | None => (Throw ProviderError, w')
    end.

(** [oauth2Client.code.getToken(ctx.request.url, { codeVerifier })] *)
Definition oauth_getToken (requestUrl verifier : string) : M Tokens :=
  fun w =>
    let w' := with_calls (calls w ++ [EvExchange requestUrl verifier]) w in
    match exchange env (calls w) requestUrl verifier with
    | Some t => (Ok t, w')
    | None => (Throw ProviderError, w')
    end.

(** *** cookies *)

Definition setTokens (tokens : Tokens) : M unit :=
  cookies_set (JSON_stringify (tokens_json tokens)).

Definition getTokens : M (option json) :=
  c <- cookies_get ;;
  match c with
  | None => ret None
  | Some t => v <- JSON_parse t ;; ret (Some v)
  end.

(** The result is [true] for the cookie map that [setTokens] returns and
    [false] for the [false] of the catch block. *)
Definition refreshTokens (token : option json) : M bool :=
  try_catch
    (newTokens <- oauth_refresh token ;;
     setTokens newTokens ;;
     ret true)
    (fun _ => ret false).

Definition deleteTokens : M unit := cookies_delete.

(** *** status *)

Definition status_read : M json :=
  try_catch
    (data <- Deno_readTextFile ;;
     JSON_parse data)
    (fun e =>
       match e with
       | NotFound =>
           emptied <- Date_now ;;
           cleaned <- Date_now ;;
           let st := status_json emptied cleaned in
           Deno_mkdir ;;
           Deno_writeTextFile (JSON_stringify st) ;;
           ret st
       | _ => throw e
       end).

Definition status_write (data : json) : M unit :=
  Deno_writeTextFile (JSON_stringify data).

(** *** fetchRcApi and getName; [None] is the [false] they return *)

Definition fetchRcApi (bearer : option json) : M (option Me) :=
  r <- fetch_profile bearer ;;
  if Nat.eqb (fst r) 200 then
    j <- JSON_parse (snd r) ;;
    fn <- get_field j "first_name" ;;
    ret (Some (mkMe fn))
  else ret None.

Definition reject (code : nat) (msg : string) : M (option Me) :=
  set_status code ;;
  set_body (BodyJson (message_json msg)) ;;
  ret None.

(** The block guarded by [if (name === false)].  Its result is [Some r] when
    the block returns [r] from [getName] and [None] when control falls out of
    it.  The [name] it declares is local to the block. *)
Definition getName_retry (tokens : json) : M (option (option Me)) :=
  rt <- get_field tokens "refreshToken" ;;
  refreshTokens rt ;;
  newTokens <- getTokens ;;
  match newTokens with
  | None =>
      cookies_delete ;;
      r <- reject 401 "invalid session" ;;
      ret (Some r)
  | Some newTokens =>
      bearer <- get_field newTokens "accessToken" ;;
      name <- fetchRcApi bearer ;;
      match name with
      | None =>
          cookies_delete ;;
          r <- reject 401 "invalid session" ;;
          ret (Some r)
      | Some _ => ret None
      end
  end.

Definition getName : M (option Me) :=
  tokens <- getTokens ;;
  match tokens with
  | None => reject 401 "not logged in"
  | Some tokens =>
      bearer <- get_field tokens "accessToken" ;;
      name <- fetchRcApi bearer ;;
      returned <- match name with
                  | None => getName_retry tokens
                  | Some _ => ret None
                  end ;;
      match returned with
      | Some r => ret r
      | None => ret name
      end
  end.

(** *** routes *)

Definition api_callback (req : Request) : M unit :=
  codeVerifier <- session_get_codeVerifier ;;
  match codeVerifier with
  | Some (JStr verifier) =>
      tokens <- oauth_getToken (url req) verifier ;;
      setTokens tokens ;;
      redirect "/"
  | _ => throw (Error "invalid codeVerifier")
  end.

Definition api_me : M unit :=
  me <- getName ;;
  match me with
  | None => ret tt
  | Some me => set_body (BodyMe me)
  end.

Definition api_status : M unit :=
  st <- status_read ;;
  set_body (BodyJson st).

(** The part of the [/api/status/:key] handler after the identity check. *)
Definition update_status (req : Request) : M unit :=
  currentStatus <- status_read ;;
  keys <- Object_keys currentStatus ;;
  if negb (has keys (key req)) then
    set_status 400 ;;
    set_body (BodyJson (message_json "invalid key"))
  else
    status_write (spread_with currentStatus (key req) (JStr update_timestamp)) ;;
    match method req with
    | GET => redirect "/"
    | POST =>
        st <- status_read ;;
        set_body (BodyJson st)
    | _ => ret tt
    end.

Definition api_status_key (req : Request) : M unit :=
  match method req with
  | POST | GET =>
      me <- getName ;;
      match me, method req with
      | None, GET => redirect "/api/login"
      | None, POST => ret tt
      | _, _ => update_status req
      end
  | _ => set_status 405
  end.

End Program.

(** ** Vocabulary of the statements *)

Definition is_refresh (e : event) : bool :=
  match e with EvRefresh _ => true | _ => false end.

Definition is_profile (e : event) : bool :=
  match e with EvProfile _ => true | _ => false end.

Definition refresh_attempts (made : list event) : nat := length (filter is_refresh made).

Definition verifier_calls (made : list event) : nat := length (filter is_profile made).

(** The provider answers every profile lookup, and never with a 200. *)
Definition always_rejects (env : Env) : Prop :=
  forall history bearer, exists code payload,
    profile env history bearer = Fetched code payload /\ code <> 200%nat.

(** The 401 that [getName] prepares, on a response whose Location is [loc]. *)
Definition unauthorized (msg : string) (loc : option string) : Response :=
  mkResponse (Some 401%nat) (Some (BodyJson (message_json msg))) loc.

(** The world after [getName] has prepared that 401. *)
Definition rejected (msg : string) (w : World) : World :=
  with_response (unauthorized msg (location (response w))) w.

(** How the retry block ends, given the world [w2] in which the second
    verification starts. *)
Definition retry_outcome (second : result (option Me) * World)
  : result (option (option Me)) * World :=
  match second with
  | (Ok None, w3) => (Ok (Some None), rejected "invalid session" (with_cookie None w3))
  | (Ok (Some _), w3) => (Ok None, w3)
  | (Throw e, w3) => (Throw e, w3)
  end.

(** [w'] has the disk, the clock and the session of [w]. *)
Definition same_store (w w' : World) : Prop :=
  disk w' = disk w /\ writable w' = writable w /\
  ticks w' = ticks w /\ pending w' = pending w.

(** A computation that leaves the disk, the clock and the session alone,
    however it ends. *)
Definition keeps_store {A} (m : M A) : Prop :=
  forall w, same_store w (snd (m w)).

(** A computation whose results, when it returns, satisfy [P]. *)
Definition returns {A} (m : M A) (P : A -> Prop) : Prop :=
  forall w a w', m w = (Ok a, w') -> P a.

(** Errors that are failures of a call to the provider. *)
Definition provider_failure (e : error) : Prop :=
  e = FetchFailed \/ e = ProviderError.

(** ** Sample environments and worlds *)

Definition old_tokens : Tokens := mkTokens "old-access" "bearer" 7200 "old-refresh".

Definition new_tokens : Tokens := mkTokens "new-access" "bearer" 7200 "new-refresh".

Definition ada : json := JObj [("first_name", JStr "Ada")].

Definition steady_clock (n : nat) : string := "2025-06-01T09:00:00.000Z".

Definition ticking_clock (n : nat) : string :=
  match n with
  | O => "2025-06-01T09:00:00.999Z"
  | _ => "2025-06-01T09:00:01.000Z"
  end.

Definition accepts_new_access (history : list event) (bearer : option json) : fetch_result :=
  match bearer with
  | Some (JStr "new-access") => Fetched 200 (Json ada)
  | _ => Fetched 401 (NotJson "HTTP Basic: Access denied.")
  end.

Definition renews_old_refresh (history : list event) (token : option json) : option Tokens :=
  match token with
  | Some (JStr "old-refresh") => Some new_tokens
  | _ => None
  end.

(** A provider on which the access token has expired and the refresh token
    is still good. *)
Definition renewing : Env :=
  mkEnv steady_clock accepts_new_access renews_old_refresh
        (fun _ _ _ => Some new_tokens).

(** A provider that turns every access token down. *)
Definition rejecting : Env :=
  mkEnv steady_clock (fun _ _ => Fetched 401 (NotJson "HTTP Basic: Access denied."))
        renews_old_refresh (fun _ _ _ => Some new_tokens).

(** A provider on which the refresh token has been revoked too. *)
Definition revoked : Env :=
  mkEnv steady_clock accepts_new_access (fun _ _ => None) (fun _ _ _ => None).

(** A provider that cannot be reached. *)
Definition unreachable : Env :=
  mkEnv steady_clock (fun _ _ => FetchError) (fun _ _ => None) (fun _ _ _ => None).

Definition renewing_on_ticking_clock : Env :=
  mkEnv ticking_clock accepts_new_access renews_old_refresh
        (fun _ _ _ => Some new_tokens).

(** A first request on a fresh deployment, without cookie. *)
Definition fresh : World := mkWorld None None Missing true 0 [] empty_response.

Definition logged_in (t : Tokens) (w : World) : World :=
  with_cookie (Some (Json (tokens_json t))) w.

Definition stored (emptied cleaned : string) (w : World) : World :=
  with_disk (Present (Json (status_json emptied cleaned))) w.

Definition june : string := "2025-06-01T09:00:00.000Z".

Definition callback_request : Request :=
  mkRequest GET "https://spenser.example/api/callback?code=c0de&state=s" "".

Definition post_key (k : string) : Request :=
  mkRequest POST ("/api/status/" ++ k)%string k.

(** The provider has just redirected the browser back with a code. *)
Definition awaiting_callback : World :=
  with_pending (Some (JStr "verifier-1")) fresh.

(** The world in which the next request of the same browser starts: a new
    response, everything else as the previous request left it. *)
Definition next_request (w : World) : World := with_response empty_response w.


(** ** Login and logout *)

(** Modelled from the spec: [session.flash("codeVerifier", v)] keeps the
    value for one later read, and [session.deleteSession()] drops what the
    session holds; both are the session library's. *)
Definition session_flash_codeVerifier (v : string) : M unit :=
  modify (with_pending (Some (JStr v))).

Definition session_deleteSession : M unit := modify (with_pending None).

(** [/api/login]; [uri] and [codeVerifier] are the pair that
    [oauth2Client.code.getAuthorizationUri()] generates. *)
Definition api_login (uri codeVerifier : string) : M unit :=
  session_flash_codeVerifier codeVerifier ;;
  redirect uri.

Definition api_logout : M unit :=
  deleteTokens ;;
  session_deleteSession ;;
  redirect "/".

(** ** Counting provider calls *)

Definition is_exchange (e : event) : bool :=
  match e with EvExchange _ _ => true | _ => false end.

Definition exchange_calls (made : list event) : nat := length (filter is_exchange made).

(** However it ends, [m] adds to the call log at most [p] profile lookups,
    [r] refresh exchanges and [x] code exchanges, and removes nothing. *)
Definition calls_within {A} (m : M A) (p r x : nat) : Prop :=
  forall w, exists made,
    calls (snd (m w)) = calls w ++ made /\
    verifier_calls made <= p /\
    refresh_attempts made <= r /\
    exchange_calls made <= x.

(** [w'] has the cookie and the call log of [w]. *)
Definition same_session (w w' : World) : Prop :=
  cookie w' = cookie w /\ calls w' = calls w /\ pending w' = pending w.

Definition authorize_uri : string :=
  "https://www.recurse.com/oauth/authorize?response_type=code&state=s".

Definition put_key (k : string) : Request :=
  mkRequest PUT ("/api/status/" ++ k)%string k.

Definition get_key (k : string) : Request :=
  mkRequest GET ("/api/status/" ++ k)%string k.

(** ** Stepping through a computation *)

Lemma bind_ok {A B} (m : M A) (k : A -> M B) w a w' :
  m w = (Ok a, w') -> bind m k w = k a w'.
Proof. intros H; unfold bind; now rewrite H. Qed.

Lemma bind_throw {A B} (m : M A) (k : A -> M B) w e w' :
  m w = (Throw e, w') -> bind m k w = (Throw e, w').
Proof. intros H; unfold bind; now rewrite H. Qed.

Lemma get_field_ok v name w :
  v <> JNull -> get_field v name w = (Ok (field_of v name), w).
Proof. destruct v; intros H; try reflexivity; now elim H. Qed.

Lemma getTokens_eq w :
  getTokens w =
  (match cookie w with
   | None => Ok None
   | Some (Json v) => Ok (Some v)
   | Some (NotJson _) => Throw SyntaxError
   end, w).
Proof.
  unfold getTokens, cookies_get, bind.
  destruct (cookie w) as [[v | raw] |]; reflexivity.
Qed.

Lemma lookup_assign_same k v fields :
  lookup k (assign k v fields) = Some v.
Proof.
  induction fields as [| [k' v'] rest IH]; simpl.
  - now rewrite String.eqb_refl.
  - destruct (String.eqb k k') eqn:E; simpl; rewrite E; auto.
Qed.

Lemma lookup_assign_other k k' v fields :
  k' <> k -> lookup k' (assign k v fields) = lookup k' fields.
Proof.
  intros Hne.
  induction fields as [| [k0 v0] rest IH]; simpl.
  - destruct (String.eqb k' k) eqn:E; auto.
    apply String.eqb_eq in E; contradiction.
  - destruct (String.eqb k k0) eqn:E; simpl.
    + apply String.eqb_eq in E; subst k0.
      destruct (String.eqb k' k) eqn:E'; auto.
      apply String.eqb_eq in E'; contradiction.
    + now rewrite IH.
Qed.

Lemma keys_assign_present k v fields :
  has (map fst fields) k = true ->
  map fst (assign k v fields) = map fst fields.
Proof.
  unfold has.
  induction fields as [| [k0 v0] rest IH]; simpl; intros H.
  - discriminate.
  - destruct (String.eqb k k0) eqn:E; simpl; auto.
    now rewrite IH.
Qed.

Section Facts.

Variable env : Env.

Lemma fetch_profile_calls bearer w :
  snd (fetch_profile env bearer w) = with_calls (calls w ++ [EvProfile bearer]) w.
Proof. unfold fetch_profile; now destruct (profile env (calls w) bearer). Qed.

(** Whatever the provider answers, [fetchRcApi] changes nothing but the
    list of calls, to which it adds one profile call. *)
Lemma fetchRcApi_world bearer w :
  snd (fetchRcApi env bearer w) = with_calls (calls w ++ [EvProfile bearer]) w.
Proof.
  unfold fetchRcApi, fetch_profile, bind.
  destruct (profile env (calls w) bearer) as [| code payload]; simpl; auto.
  destruct (Nat.eqb code 200); simpl; auto.
  destruct payload as [v | raw]; simpl; auto.
  destruct v; reflexivity.
Qed.

Lemma fetchRcApi_rejected bearer w code payload :
  profile env (calls w) bearer = Fetched code payload ->
  code <> 200%nat ->
  fetchRcApi env bearer w = (Ok None, with_calls (calls w ++ [EvProfile bearer]) w).
Proof.
  intros Hp Hc. unfold fetchRcApi, fetch_profile, bind. rewrite Hp. simpl.
  apply Nat.eqb_neq in Hc. now rewrite Hc.
Qed.

Lemma fetchRcApi_unreachable bearer w :
  profile env (calls w) bearer = FetchError ->
  fetchRcApi env bearer w =
  (Throw FetchFailed, with_calls (calls w ++ [EvProfile bearer]) w).
Proof.
  intros Hp. unfold fetchRcApi, fetch_profile, bind. now rewrite Hp.
Qed.

Lemma refreshTokens_eq token w :
  refreshTokens env token w =
  match refresh env (calls w) token with
  | Some t =>
      (Ok true,
       with_cookie (Some (Json (tokens_json t)))
         (with_calls (calls w ++ [EvRefresh token]) w))
  | None => (Ok false, with_calls (calls w ++ [EvRefresh token]) w)
  end.
Proof.
  unfold refreshTokens, try_catch, bind, oauth_refresh.
  destruct (refresh env (calls w) token); reflexivity.
Qed.

End Facts.

(** ** Token Store *)

(** C8: when the provider fails the refresh exchange, [refreshTokens]
    returns [false] and writes nothing: the cookie is what it was, and the
    world differs from the one before only by the recorded provider call. *)
Theorem refreshTokens_provider_error_writes_nothing env token w :
  refresh env (calls w) token = None ->
  fst (refreshTokens env token w) = Ok false /\
  cookie (snd (refreshTokens env token w)) = cookie w /\
  snd (refreshTokens env token w) = with_calls (calls w ++ [EvRefresh token]) w.
Proof.
  intros H. rewrite refreshTokens_eq, H. simpl. auto.
Qed.

Lemma refreshTokens_provider_error_writes_nothing_witness :
  let w := logged_in old_tokens fresh in
  let token := Some (JStr "old-refresh") in
  refresh revoked (calls w) token = None /\
  fst (refreshTokens revoked token w) = Ok false /\
  cookie (snd (refreshTokens revoked token w)) = Some (Json (tokens_json old_tokens)).
Proof.
  split; [reflexivity |].
  destruct (refreshTokens_provider_error_writes_nothing revoked
              (Some (JStr "old-refresh")) (logged_in old_tokens fresh) eq_refl)
    as (Hr & Hc & _).
  split; [exact Hr | exact Hc].
Defined.

(** ** resolveIdentity *)

Section Resolve.

Variable env : Env.

(** [getName] on a world whose cookie holds a credential. *)
Lemma getName_with_credential w tokens :
  cookie w = Some (Json tokens) ->
  tokens <> JNull ->
  getName env w =
  (name <- fetchRcApi env (field_of tokens "accessToken") ;;
   returned <- match name with
               | None => getName_retry env tokens
               | Some _ => ret None
               end ;;
   match returned with
   | Some r => ret r
   | None => ret name
   end) w.
Proof.
  intros Hc Hn. unfold getName.
  rewrite (bind_ok _ _ w (Some tokens) w) by (rewrite getTokens_eq, Hc; reflexivity).
  now rewrite (bind_ok _ _ w _ w (get_field_ok tokens "accessToken" w Hn)).
Qed.

(** The retry block once the refresh has failed: the cookie is read again,
    unchanged, and the verifier is called again. *)
Lemma getName_retry_after_failed_refresh w tokens :
  cookie w = Some (Json tokens) ->
  tokens <> JNull ->
  refresh env (calls w) (field_of tokens "refreshToken") = None ->
  getName_retry env tokens w =
  (name <- fetchRcApi env (field_of tokens "accessToken") ;;
   match name with
   | None =>
       cookies_delete ;;
       r <- reject 401 "invalid session" ;;
       ret (Some r)
   | Some _ => ret None
   end) (with_calls (calls w ++ [EvRefresh (field_of tokens "refreshToken")]) w).
Proof.
  intros Hc Hn Hr. unfold getName_retry.
  rewrite (bind_ok _ _ w _ w (get_field_ok tokens "refreshToken" w Hn)).
  set (w1 := with_calls _ w).
  rewrite (bind_ok _ _ w false w1) by (rewrite refreshTokens_eq, Hr; reflexivity).
  rewrite (bind_ok _ _ w1 (Some tokens) w1)
    by (rewrite getTokens_eq; unfold w1; simpl; rewrite Hc; reflexivity).
  now rewrite (bind_ok _ _ w1 _ w1 (get_field_ok tokens "accessToken" w1 Hn)).
Qed.

(** The retry block once the refresh has succeeded: the cookie now holds the
    new bundle, and the verifier is called with its access token. *)
Lemma getName_retry_after_refresh w tokens fresh_tokens :
  tokens <> JNull ->
  refresh env (calls w) (field_of tokens "refreshToken") = Some fresh_tokens ->
  getName_retry env tokens w =
  (name <- fetchRcApi env (Some (JStr (accessToken fresh_tokens))) ;;
   match name with
   | None =>
       cookies_delete ;;
       r <- reject 401 "invalid session" ;;
       ret (Some r)
   | Some _ => ret None
   end) (with_cookie (Some (Json (tokens_json fresh_tokens)))
           (with_calls (calls w ++ [EvRefresh (field_of tokens "refreshToken")]) w)).
Proof.
  intros Hn Hr. unfold getName_retry.
  rewrite (bind_ok _ _ w _ w (get_field_ok tokens "refreshToken" w Hn)).
  set (w1 := with_cookie _ _).
  rewrite (bind_ok _ _ w true w1) by (rewrite refreshTokens_eq, Hr; reflexivity).
  rewrite (bind_ok _ _ w1 (Some (tokens_json fresh_tokens)) w1)
    by (rewrite getTokens_eq; reflexivity).
  reflexivity.
Qed.

Lemma reject_eq msg w : reject 401 msg w = (Ok None, rejected msg w).
Proof. reflexivity. Qed.

Lemma retry_tail_eq bearer w2 :
  (name <- fetchRcApi env bearer ;;
   match name with
   | None =>
       cookies_delete ;;
       r <- reject 401 "invalid session" ;;
       ret (Some r)
   | Some _ => ret None
   end) w2 = retry_outcome (fetchRcApi env bearer w2).
Proof.
  unfold bind at 1, retry_outcome.
  destruct (fetchRcApi env bearer w2) as [[[me |] | e] w3]; reflexivity.
Qed.

(** [getName] once the first verification has been turned down. *)
Lemma getName_after_rejection w tokens code payload :
  cookie w = Some (Json tokens) ->
  tokens <> JNull ->
  profile env (calls w) (field_of tokens "accessToken") = Fetched code payload ->
  code <> 200%nat ->
  getName env w =
  match getName_retry env tokens
          (with_calls (calls w ++ [EvProfile (field_of tokens "accessToken")]) w) with
  | (Ok (Some r), w') => (Ok r, w')
  | (Ok None, w') => (Ok None, w')
  | (Throw e, w') => (Throw e, w')
  end.
Proof.
  intros Hc Hn Hp Hcode.
  rewrite (getName_with_credential w tokens Hc Hn).
  rewrite (bind_ok _ _ w None _ (fetchRcApi_rejected env _ w code payload Hp Hcode)).
  unfold bind at 1.
  destruct (getName_retry env tokens _) as [[[r |] | e] w']; reflexivity.
Qed.

End Resolve.

(** C10: when the first verification fails and the refresh fails too, the
    result of the refresh is ignored: the verifier is called a second time
    with the access token of the unchanged cookie, and "invalid session" is
    reported exactly when that second call is turned down as well. *)
Theorem getName_failed_refresh_retries_old_token env w tokens code payload :
  cookie w = Some (Json tokens) ->
  tokens <> JNull ->
  profile env (calls w) (field_of tokens "accessToken") = Fetched code payload ->
  code <> 200%nat ->
  refresh env (calls w ++ [EvProfile (field_of tokens "accessToken")])
          (field_of tokens "refreshToken") = None ->
  let bearer := field_of tokens "accessToken" in
  let before_retry :=
    (calls w ++ [EvProfile bearer; EvRefresh (field_of tokens "refreshToken")])%list in
  let out := getName env w in
  calls (snd out) = before_retry ++ [EvProfile bearer] /\
  match profile env before_retry bearer with
  | Fetched code2 _ =>
      if Nat.eqb code2 200
      then response (snd out) = response w /\ cookie (snd out) = cookie w
      else fst out = Ok None /\
           response (snd out) = unauthorized "invalid session" (location (response w)) /\
           cookie (snd out) = None
  | FetchError => fst out = Throw FetchFailed /\ response (snd out) = response w
  end.
Proof.
  intros Hc Hn Hp Hcode Hr bearer before_retry out.
  subst out. fold bearer in Hp, Hr.
  rewrite (getName_after_rejection env w tokens code payload Hc Hn Hp Hcode).
  fold bearer. set (w1 := with_calls (calls w ++ [EvProfile bearer]) w).
  rewrite (getName_retry_after_failed_refresh env w1 tokens Hc Hn Hr).
  rewrite retry_tail_eq. fold bearer.
  set (w2 := with_calls _ w1).
  assert (Hcalls2 : calls w2 = before_retry).
  { unfold w2, w1, before_retry; simpl. now rewrite <- app_assoc. }
  rewrite <- Hcalls2.
  assert (Hw3 := fetchRcApi_world env bearer w2).
  destruct (fetchRcApi env bearer w2) as [r3 w3] eqn:E3. simpl in Hw3. subst w3.
  unfold fetchRcApi, fetch_profile, bind in E3.
  destruct (profile env (calls w2) bearer) as [| code2 payload2].
  - inversion E3; subst r3. simpl. auto.
  - simpl in E3. destruct (Nat.eqb code2 200).
    + destruct r3 as [[me |] | e]; simpl; auto.
      exfalso. destruct payload2 as [[] | raw]; simpl in E3; discriminate.
    + inversion E3; subst r3. simpl. auto.
Qed.

Lemma getName_failed_refresh_retries_old_token_witness :
  let w := logged_in old_tokens fresh in
  calls (snd (getName revoked w)) =
    [EvProfile (Some (JStr "old-access")); EvRefresh (Some (JStr "old-refresh"));
     EvProfile (Some (JStr "old-access"))] /\
  fst (getName revoked w) = Ok None /\
  response (snd (getName revoked w)) = unauthorized "invalid session" None /\
  cookie (snd (getName revoked w)) = None.
Proof.
  assert (Hcode : 401%nat <> 200%nat) by (intro H; discriminate H).
  assert (Hnull : tokens_json old_tokens <> JNull) by (intro H; discriminate H).
  exact (getName_failed_refresh_retries_old_token revoked (logged_in old_tokens fresh)
           (tokens_json old_tokens) 401 (NotJson "HTTP Basic: Access denied.")
           eq_refl Hnull eq_refl Hcode eq_refl).
Defined.

(** C6: with a stored credential and a verifier that turns every token
    down, [getName] makes one refresh attempt and two verifier calls, clears
    the cookie and answers 401 "invalid session"; [GET /api/me] sends that
    response. *)
Theorem getName_single_retry_bound env w tokens :
  cookie w = Some (Json tokens) ->
  tokens <> JNull ->
  always_rejects env ->
  exists made w',
    getName env w = (Ok None, w') /\
    api_me env w = (Ok tt, w') /\
    calls w' = calls w ++ made /\
    refresh_attempts made <= 1 /\
    verifier_calls made <= 2 /\
    response w' = unauthorized "invalid session" (location (response w)) /\
    sent_status (response w') = 401%nat /\
    cookie w' = None.
Proof.
  intros Hc Hn Hrej.
  set (bearer := field_of tokens "accessToken").
  set (token := field_of tokens "refreshToken").
  destruct (Hrej (calls w) bearer) as (code & payload & Hp & Hcode).
  assert (Hname := getName_after_rejection env w tokens code payload Hc Hn Hp Hcode).
  fold bearer in Hname.
  set (w1 := with_calls (calls w ++ [EvProfile bearer]) w) in Hname.
  assert (Hretry : exists bearer2,
             getName_retry env tokens w1 =
             (Ok (Some None),
              rejected "invalid session"
                (with_cookie None
                   (with_calls (calls w ++ [EvProfile bearer; EvRefresh token;
                                            EvProfile bearer2]) w)))).
  { destruct (refresh env (calls w1) token) as [fresh_tokens |] eqn:Hr.
    - exists (Some (JStr (accessToken fresh_tokens))).
      rewrite (getName_retry_after_refresh env w1 tokens fresh_tokens Hn Hr).
      rewrite retry_tail_eq. fold token.
      set (w2 := with_cookie _ _).
      destruct (Hrej (calls w2) (Some (JStr (accessToken fresh_tokens))))
        as (c2 & p2 & Hp2 & Hc2).
      rewrite (fetchRcApi_rejected env _ w2 c2 p2 Hp2 Hc2).
      unfold retry_outcome, rejected, w2, w1; simpl.
      now rewrite <- !app_assoc.
    - exists bearer.
      rewrite (getName_retry_after_failed_refresh env w1 tokens Hc Hn Hr).
      rewrite retry_tail_eq. fold token bearer.
      set (w2 := with_calls _ w1).
      destruct (Hrej (calls w2) bearer) as (c2 & p2 & Hp2 & Hc2).
      rewrite (fetchRcApi_rejected env _ w2 c2 p2 Hp2 Hc2).
      unfold retry_outcome, rejected, w2, w1; simpl.
      now rewrite <- !app_assoc. }
  destruct Hretry as (bearer2 & Hretry).
  rewrite Hretry in Hname.
  exists [EvProfile bearer; EvRefresh token; EvProfile bearer2].
  eexists. split; [exact Hname |].
  split; [unfold api_me; now rewrite (bind_ok _ _ _ _ _ Hname) |].
  simpl. repeat split; auto.
Qed.

Lemma getName_single_retry_bound_witness :
  exists made w',
    getName rejecting (logged_in old_tokens fresh) = (Ok None, w') /\
    api_me rejecting (logged_in old_tokens fresh) = (Ok tt, w') /\
    calls w' = calls (logged_in old_tokens fresh) ++ made /\
    refresh_attempts made <= 1 /\
    verifier_calls made <= 2 /\
    response w' = unauthorized "invalid session" None /\
    sent_status (response w') = 401%nat /\
    cookie w' = None.
Proof.
  assert (Hnull : tokens_json old_tokens <> JNull) by (intro H; discriminate H).
  assert (Hrej : always_rejects rejecting).
  { intros history bearer. exists 401%nat, (NotJson "HTTP Basic: Access denied.").
    split; [reflexivity | intro H; discriminate H]. }
  exact (getName_single_retry_bound rejecting (logged_in old_tokens fresh)
           (tokens_json old_tokens) eq_refl Hnull Hrej).
Defined.

(** ** What resolveIdentity leaves alone *)

Lemma same_store_refl w : same_store w w.
Proof. unfold same_store; auto. Qed.

Lemma same_store_trans w1 w2 w3 :
  same_store w1 w2 -> same_store w2 w3 -> same_store w1 w3.
Proof.
  unfold same_store. intros (? & ? & ? & ?) (? & ? & ? & ?).
  repeat split; congruence.
Qed.

Lemma keeps_ret {A} (a : A) : keeps_store (ret a).
Proof. intros w; apply same_store_refl. Qed.

Lemma keeps_throw {A} e : keeps_store (@throw A e).
Proof. intros w; apply same_store_refl. Qed.

Lemma keeps_bind {A B} (m : M A) (k : A -> M B) :
  keeps_store m -> (forall a, keeps_store (k a)) -> keeps_store (bind m k).
Proof.
  intros Hm Hk w. unfold bind. specialize (Hm w).
  destruct (m w) as [[a | e] w1]; simpl in *; auto.
  eapply same_store_trans; [exact Hm | apply Hk].
Qed.

Lemma keeps_try_catch {A} (m : M A) (h : error -> M A) :
  keeps_store m -> (forall e, keeps_store (h e)) -> keeps_store (try_catch m h).
Proof.
  intros Hm Hh w. unfold try_catch. specialize (Hm w).
  destruct (m w) as [[a | e] w1]; simpl in *; auto.
  eapply same_store_trans; [exact Hm | apply Hh].
Qed.

Lemma keeps_cookies_get : keeps_store cookies_get.
Proof. intros w; apply same_store_refl. Qed.

Lemma keeps_cookies_set t : keeps_store (cookies_set t).
Proof. intros w; repeat split; reflexivity. Qed.

Lemma keeps_cookies_delete : keeps_store cookies_delete.
Proof. intros w; repeat split; reflexivity. Qed.

Lemma keeps_set_status s : keeps_store (set_status s).
Proof. intros w; repeat split; reflexivity. Qed.

Lemma keeps_set_body b : keeps_store (set_body b).
Proof. intros w; repeat split; reflexivity. Qed.

Lemma keeps_JSON_parse t : keeps_store (JSON_parse t).
Proof. destruct t; [apply keeps_ret | apply keeps_throw]. Qed.

Lemma keeps_get_field v name : keeps_store (get_field v name).
Proof. destruct v; try apply keeps_ret; apply keeps_throw. Qed.

Lemma keeps_fetch_profile env bearer : keeps_store (fetch_profile env bearer).
Proof. intros w. rewrite fetch_profile_calls. repeat split; reflexivity. Qed.

Lemma keeps_oauth_refresh env token : keeps_store (oauth_refresh env token).
Proof.
  intros w. unfold oauth_refresh.
  destruct (refresh env (calls w) token); repeat split; reflexivity.
Qed.

Create HintDb keeps.

#[local] Hint Resolve keeps_ret keeps_throw keeps_cookies_get keeps_cookies_set
  keeps_cookies_delete keeps_set_status keeps_set_body keeps_JSON_parse
  keeps_get_field keeps_fetch_profile keeps_oauth_refresh : keeps.

Ltac keeps_step :=
  match goal with
  | |- keeps_store (bind _ _) => apply keeps_bind; [ | intros ? ]
  | |- keeps_store (try_catch _ _) => apply keeps_try_catch; [ | intros ? ]
  | |- keeps_store (match ?x with _ => _ end) => destruct x
  | |- keeps_store (if ?x then _ else _) => destruct x
  | |- keeps_store _ => solve [auto with keeps]
  end.

Lemma keeps_getTokens : keeps_store getTokens.
Proof. unfold getTokens. repeat keeps_step. Qed.

Lemma keeps_fetchRcApi env bearer : keeps_store (fetchRcApi env bearer).
Proof. unfold fetchRcApi. repeat keeps_step. Qed.

Lemma keeps_refreshTokens env token : keeps_store (refreshTokens env token).
Proof. unfold refreshTokens, setTokens. repeat keeps_step. Qed.

Lemma keeps_reject code msg : keeps_store (reject code msg).
Proof. unfold reject. repeat keeps_step. Qed.

#[local] Hint Resolve keeps_getTokens keeps_fetchRcApi keeps_refreshTokens
  keeps_reject : keeps.

Lemma keeps_getName_retry env tokens : keeps_store (getName_retry env tokens).
Proof. unfold getName_retry. repeat keeps_step. Qed.

#[local] Hint Resolve keeps_getName_retry : keeps.

(** [getName] touches neither the disk nor the clock nor the session. *)
Lemma keeps_getName env : keeps_store (getName env).
Proof. unfold getName. repeat keeps_step. Qed.

Lemma returns_ret {A} (a : A) (P : A -> Prop) : P a -> returns (ret a) P.
Proof. intros H w a' w' E. inversion E; now subst. Qed.

Lemma returns_bind {A B} (m : M A) (k : A -> M B) (Q : A -> Prop) (P : B -> Prop) :
  returns m Q -> (forall a, Q a -> returns (k a) P) -> returns (bind m k) P.
Proof.
  intros Hm Hk w b w' E. unfold bind in E.
  destruct (m w) as [[a | e] w1] eqn:E1; [ | discriminate E].
  exact (Hk a (Hm w a w1 E1) w1 b w' E).
Qed.

Lemma returns_any {A} (m : M A) : returns m (fun _ => True).
Proof. intros w a w' _; exact I. Qed.

Lemma returns_reject code msg : returns (reject code msg) (fun r => r = None).
Proof. intros w a w' E. inversion E; reflexivity. Qed.

(** The retry block never makes [getName] return a name: what it returns
    from [getName] is [false]. *)
Lemma getName_retry_returns_false env tokens :
  returns (getName_retry env tokens)
          (fun returned => returned = None \/ returned = Some None).
Proof.
  assert (Hgive_up : returns (cookies_delete ;; r <- reject 401 "invalid session" ;; ret (Some r))
                             (fun returned => returned = None \/ returned = Some None)).
  { apply (returns_bind _ _ _ _ (returns_any _)). intros _ _.
    apply (returns_bind _ _ _ _ (returns_reject _ _)). intros r ->.
    apply returns_ret. now right. }
  unfold getName_retry.
  apply (returns_bind _ _ _ _ (returns_any _)). intros rt _.
  apply (returns_bind _ _ _ _ (returns_any _)). intros _ _.
  apply (returns_bind _ _ _ _ (returns_any _)). intros [newTokens |] _; [ | exact Hgive_up].
  apply (returns_bind _ _ _ _ (returns_any _)). intros bearer _.
  apply (returns_bind _ _ _ _ (returns_any _)). intros [name |] _; [ | exact Hgive_up].
  apply returns_ret. now left.
Qed.

(** Once the first verification has been turned down, [getName] returns
    [false] or throws, whatever the refresh and the second verification
    give. *)
Lemma getName_no_name_after_rejection env w tokens code payload me :
  cookie w = Some (Json tokens) ->
  tokens <> JNull ->
  profile env (calls w) (field_of tokens "accessToken") = Fetched code payload ->
  code <> 200%nat ->
  fst (getName env w) <> Ok (Some me).
Proof.
  intros Hc Hn Hp Hcode.
  rewrite (getName_after_rejection env w tokens code payload Hc Hn Hp Hcode).
  destruct (getName_retry env tokens _) as [[[r |] | e] w'] eqn:E; simpl;
    try (intro H; discriminate H).
  destruct (getName_retry_returns_false env tokens _ _ _ E) as [H | H];
    [discriminate H | inversion H; intro H'; discriminate H'].
Qed.

(** C1: the stored access token is turned down, the refresh succeeds and
    the verifier accepts the access token of the re-read cookie; [getName]
    nevertheless returns [false], and [GET /api/me] ends with a response that
    has neither body nor status, which is sent as a 404. *)
Theorem api_me_after_successful_refresh_reports_no_identity :
  let w := logged_in old_tokens fresh in
  let out := api_me renewing w in
  fst (fetchRcApi renewing (Some (JStr "old-access")) w) = Ok None /\
  calls (snd out) =
    [EvProfile (Some (JStr "old-access")); EvRefresh (Some (JStr "old-refresh"));
     EvProfile (Some (JStr "new-access"))] /\
  cookie (snd out) = Some (Json (tokens_json new_tokens)) /\
  fst (fetchRcApi renewing (Some (JStr "new-access")) (snd out)) =
    Ok (Some (mkMe (Some (JStr "Ada")))) /\
  fst (getName renewing w) = Ok None /\
  fst out = Ok tt /\
  response (snd out) = empty_response /\
  sent_status (response (snd out)) = 404%nat.
Proof.
  vm_compute. repeat split; reflexivity.
Qed.

(** ** Status Record Store *)

Section Store.

Variable env : Env.

Lemma status_read_present w v :
  disk w = Present (Json v) -> status_read env w = (Ok v, w).
Proof.
  intros H. unfold status_read, try_catch, bind, Deno_readTextFile.
  now rewrite H.
Qed.

(** The first read on a fresh deployment: two readings of the clock, one
    per key, and the record written to disk. *)
Lemma status_read_missing w :
  disk w = Missing ->
  writable w = true ->
  let st := status_json (now env (ticks w)) (now env (S (ticks w))) in
  status_read env w =
  (Ok st, with_disk (Present (Json st)) (with_ticks (S (S (ticks w))) w)).
Proof.
  intros Hd Hw. unfold status_read, try_catch, bind, Deno_readTextFile.
  rewrite Hd. unfold Date_now, Deno_mkdir, Deno_writeTextFile, with_ticks.
  cbn. rewrite Hw. reflexivity.
Qed.

Lemma api_status_key_authenticated req w me w1 :
  method req = POST \/ method req = GET ->
  getName env w = (Ok (Some me), w1) ->
  api_status_key env req w = update_status env req w1.
Proof.
  intros Hm Hg. unfold api_status_key.
  destruct Hm as [Hm | Hm]; rewrite Hm;
    now rewrite (bind_ok _ _ _ _ _ Hg).
Qed.

Lemma Object_keys_ok v w :
  v <> JNull -> Object_keys v w = (Ok (map fst (own_entries v)), w).
Proof. destruct v; intros H; try reflexivity; now elim H. Qed.

Lemma update_status_unknown_key req w cur :
  disk w = Present (Json cur) ->
  cur <> JNull ->
  has (map fst (own_entries cur)) (key req) = false ->
  update_status env req w =
  (Ok tt,
   with_response
     (mkResponse (Some 400%nat) (Some (BodyJson (message_json "invalid key")))
                 (location (response w))) w).
Proof.
  intros Hd Hn Hk. unfold update_status.
  rewrite (bind_ok _ _ _ _ _ (status_read_present w cur Hd)).
  rewrite (bind_ok _ _ _ _ _ (Object_keys_ok cur w Hn)).
  rewrite Hk. reflexivity.
Qed.

Lemma update_status_known_key req w cur :
  disk w = Present (Json cur) ->
  cur <> JNull ->
  has (map fst (own_entries cur)) (key req) = true ->
  writable w = true ->
  let written := spread_with cur (key req) (JStr update_timestamp) in
  update_status env req w =
  match method req with
  | GET => redirect "/" (with_disk (Present (Json written)) w)
  | POST => set_body (BodyJson written) (with_disk (Present (Json written)) w)
  | _ => (Ok tt, with_disk (Present (Json written)) w)
  end.
Proof.
  intros Hd Hn Hk Hw written. unfold update_status.
  rewrite (bind_ok _ _ _ _ _ (status_read_present w cur Hd)).
  rewrite (bind_ok _ _ _ _ _ (Object_keys_ok cur w Hn)).
  rewrite Hk. change (negb true) with false. cbv iota.
  assert (Hwrite : status_write (spread_with cur (key req) (JStr update_timestamp)) w =
                   (Ok tt, with_disk (Present (Json written)) w)).
  { unfold status_write, Deno_writeTextFile. now rewrite Hw. }
  rewrite (bind_ok _ _ _ _ _ Hwrite).
  destruct (method req); reflexivity.
Qed.

End Store.

(** C7: for an authenticated GET or POST on [/api/status/:key], whatever
    value the status file holds, a key that is not among the keys of that
    value is answered 400 "invalid key" and the file is left as it was. *)
Theorem update_unknown_key_rejected env req w w1 me cur :
  method req = POST \/ method req = GET ->
  getName env w = (Ok (Some me), w1) ->
  disk w = Present (Json cur) ->
  cur <> JNull ->
  has (map fst (own_entries cur)) (key req) = false ->
  exists w',
    api_status_key env req w = (Ok tt, w') /\
    status (response w') = Some 400%nat /\
    body (response w') = Some (BodyJson (message_json "invalid key")) /\
    sent_status (response w') = 400%nat /\
    disk w' = disk w.
Proof.
  intros Hm Hg Hd Hn Hk.
  destruct (keeps_getName env w) as (Hd1 & _).
  rewrite Hg in Hd1. simpl in Hd1.
  rewrite (api_status_key_authenticated env req w me w1 Hm Hg).
  rewrite (update_status_unknown_key env req w1 cur) by congruence.
  eexists; split; [reflexivity |]. simpl. auto.
Qed.

Lemma update_unknown_key_rejected_witness :
  exists w',
    api_status_key renewing (post_key "last_swept")
                   (stored june june (logged_in new_tokens fresh)) = (Ok tt, w') /\
    status (response w') = Some 400%nat /\
    body (response w') = Some (BodyJson (message_json "invalid key")) /\
    sent_status (response w') = 400%nat /\
    disk w' = Present (Json (status_json june june)).
Proof.
  assert (Hnull : status_json june june <> JNull) by (intro H; discriminate H).
  exact (update_unknown_key_rejected renewing (post_key "last_swept")
           (stored june june (logged_in new_tokens fresh)) _ _
           (status_json june june) (or_introl eq_refl) eq_refl eq_refl Hnull eq_refl).
Defined.

(** C9: an accepted update (authenticated, key among the keys of the stored
    value, storage writable) writes to disk the whole record with the named
    key holding the update timestamp, every other key holding what it held
    and the key set unchanged; a POST answers with the record read back, a
    GET redirects to the root. *)
Theorem accepted_update_replaces_one_key env req w w1 me cur :
  method req = POST \/ method req = GET ->
  getName env w = (Ok (Some me), w1) ->
  disk w = Present (Json cur) ->
  cur <> JNull ->
  has (map fst (own_entries cur)) (key req) = true ->
  writable w = true ->
  let written := assign (key req) (JStr update_timestamp) (own_entries cur) in
  exists w',
    api_status_key env req w = (Ok tt, w') /\
    disk w' = Present (Json (JObj written)) /\
    lookup (key req) written = Some (JStr update_timestamp) /\
    (forall k, k <> key req -> lookup k written = lookup k (own_entries cur)) /\
    map fst written = map fst (own_entries cur) /\
    (method req = POST -> body (response w') = Some (BodyJson (JObj written))) /\
    (method req = GET -> location (response w') = Some "/").
Proof.
  intros Hm Hg Hd Hn Hk Hw written.
  destruct (keeps_getName env w) as (Hd1 & Hw1 & _).
  rewrite Hg in Hd1, Hw1. simpl in Hd1, Hw1.
  rewrite (api_status_key_authenticated env req w me w1 Hm Hg).
  rewrite (update_status_known_key env req w1 cur) by congruence.
  assert (Hrest : lookup (key req) written = Some (JStr update_timestamp) /\
                  (forall k, k <> key req -> lookup k written = lookup k (own_entries cur)) /\
                  map fst written = map fst (own_entries cur)).
  { split; [apply lookup_assign_same |].
    split; [intros k Hne; now apply lookup_assign_other |].
    now apply keys_assign_present. }
  destruct Hrest as (H1 & H2 & H3).
  destruct Hm as [Hm | Hm]; rewrite Hm; eexists; (split; [reflexivity |]);
    simpl; repeat split; auto; intros H; discriminate H.
Qed.

Lemma accepted_update_replaces_one_key_witness :
  exists w',
    api_status_key renewing (post_key "last_emptied")
                   (stored june june (logged_in new_tokens fresh)) = (Ok tt, w') /\
    disk w' = Present (Json (status_json update_timestamp june)) /\
    body (response w') = Some (BodyJson (status_json update_timestamp june)).
Proof.
  assert (Hnull : status_json june june <> JNull) by (intro H; discriminate H).
  destruct (accepted_update_replaces_one_key renewing (post_key "last_emptied")
              (stored june june (logged_in new_tokens fresh)) _ _
              (status_json june june) (or_introl eq_refl) eq_refl eq_refl Hnull
              eq_refl eq_refl)
    as (w' & Hrun & Hdisk & _ & _ & _ & Hbody & _).
  exists w'. split; [exact Hrun |]. split; [exact Hdisk | exact (Hbody eq_refl)].
Defined.

(** ** Cookie contents that are not JSON *)




(** ** Failures of provider calls *)

(** C3, as stated, fails: at the callback a failure of the code exchange is
    not caught; the handler ends with the provider's exception, having
    prepared no response and written no cookie. *)
Lemma api_callback_exchange_failure_propagates :
  exchange unreachable (calls awaiting_callback) (url callback_request) "verifier-1" = None /\
  fst (api_callback unreachable callback_request awaiting_callback) = Throw ProviderError /\
  provider_failure ProviderError /\
  response (snd (api_callback unreachable callback_request awaiting_callback)) = empty_response /\
  cookie (snd (api_callback unreachable callback_request awaiting_callback)) = None.
Proof.
  repeat split; try reflexivity. now right.
Qed.

(** C3, amended: three independent facts about any provider.  A failure of
    the refresh exchange is caught inside [refreshTokens] and becomes the
    result [false].  A profile lookup answered with a status other than 200
    becomes the result [false].  A failure of the code exchange at the
    callback is not caught and leaves the handler as an exception, after the
    pending verifier has been consumed and before any cookie or response is
    written. *)
Theorem provider_failures_caught_at_refresh_only env :
  (forall token w,
     refresh env (calls w) token = None ->
     refreshTokens env token w =
       (Ok false, with_calls (calls w ++ [EvRefresh token]) w)) /\
  (forall bearer w code payload,
     profile env (calls w) bearer = Fetched code payload ->
     code <> 200%nat ->
     fetchRcApi env bearer w =
       (Ok None, with_calls (calls w ++ [EvProfile bearer]) w)) /\
  (forall req w verifier,
     pending w = Some (JStr verifier) ->
     exchange env (calls w) (url req) verifier = None ->
     api_callback env req w =
       (Throw ProviderError,
        with_calls (calls w ++ [EvExchange (url req) verifier]) (with_pending None w))).
Proof.
  split; [ | split].
  - intros token w Hr. rewrite refreshTokens_eq, Hr. reflexivity.
  - intros bearer w code payload Hp Hcode.
    exact (fetchRcApi_rejected env bearer w code payload Hp Hcode).
  - intros req w verifier Hv Hx.
    unfold api_callback, session_get_codeVerifier, bind. rewrite Hv.
    unfold oauth_getToken. cbn. now rewrite Hx.
Qed.

Lemma provider_failures_caught_at_refresh_only_witness :
  refreshTokens revoked (Some (JStr "old-refresh")) (logged_in old_tokens fresh) =
    (Ok false,
     with_calls [EvRefresh (Some (JStr "old-refresh"))] (logged_in old_tokens fresh)) /\
  fetchRcApi revoked (Some (JStr "old-access")) (logged_in old_tokens fresh) =
    (Ok None,
     with_calls [EvProfile (Some (JStr "old-access"))] (logged_in old_tokens fresh)) /\
  api_callback unreachable callback_request awaiting_callback =
    (Throw ProviderError,
     with_calls [EvExchange (url callback_request) "verifier-1"]
       (with_pending None awaiting_callback)).
Proof.
  assert (Hcode : 401%nat <> 200%nat) by (intro H; discriminate H).
  destruct (provider_failures_caught_at_refresh_only revoked) as (Hrefresh & Hlookup & _).
  destruct (provider_failures_caught_at_refresh_only unreachable) as (_ & _ & Hexchange).
  split; [exact (Hrefresh (Some (JStr "old-refresh")) (logged_in old_tokens fresh) eq_refl) |].
  split; [exact (Hlookup (Some (JStr "old-access")) (logged_in old_tokens fresh)
                   401%nat (NotJson "HTTP Basic: Access denied.") eq_refl Hcode) |].
  exact (Hexchange callback_request awaiting_callback "verifier-1" eq_refl eq_refl).
Defined.

(** ** The status endpoints end to end *)

(** C4, as stated, fails: a POST without credential does get a body, the
    one [getName] has put in the response together with the 401. *)
Lemma unauthenticated_post_carries_body :
  let w := stored june june fresh in
  let out := api_status_key renewing (post_key "last_cleaned") w in
  fst (getName renewing w) = Ok None /\
  fst out = Ok tt /\
  status (response (snd out)) = Some 401%nat /\
  body (response (snd out)) = Some (BodyJson (message_json "not logged in")) /\
  body (response (snd out)) <> None.
Proof.
  repeat split; try reflexivity. intro H; discriminate H.
Qed.

(** C4, amended: when [getName] returns [false], a POST on
    [/api/status/:key] ends in the world [getName] left: the handler adds
    nothing to the response, and the status file is the one before the
    request.  Without cookie that response is the 401 "not logged in". *)
Theorem unauthenticated_post_changes_no_status env req w w1 :
  method req = POST ->
  getName env w = (Ok None, w1) ->
  api_status_key env req w = (Ok tt, w1) /\
  disk w1 = disk w /\
  (cookie w = None -> response w1 = unauthorized "not logged in" (location (response w))).
Proof.
  intros Hm Hg.
  split; [unfold api_status_key; rewrite Hm; now rewrite (bind_ok _ _ _ _ _ Hg) |].
  destruct (keeps_getName env w) as (Hd & _). rewrite Hg in Hd. simpl in Hd.
  split; [exact Hd |].
  intros Hc.
  assert (Ht : getTokens w = (Ok None, w)) by (rewrite getTokens_eq, Hc; reflexivity).
  unfold getName in Hg. rewrite (bind_ok _ _ _ _ _ Ht) in Hg.
  rewrite reject_eq in Hg. inversion Hg. reflexivity.
Qed.

Lemma unauthenticated_post_changes_no_status_witness :
  let w := stored june june fresh in
  api_status_key renewing (post_key "last_cleaned") w =
    (Ok tt, rejected "not logged in" w) /\
  disk (rejected "not logged in" w) = Present (Json (status_json june june)) /\
  response (rejected "not logged in" w) = unauthorized "not logged in" None.
Proof.
  destruct (unauthenticated_post_changes_no_status renewing (post_key "last_cleaned")
              (stored june june fresh) (rejected "not logged in" (stored june june fresh))
              eq_refl eq_refl)
    as (Hrun & Hdisk & Hresp).
  split; [exact Hrun |]. split; [exact Hdisk | exact (Hresp eq_refl)].
Defined.

(** C5, as stated, fails: the two keys of the initial record come from two
    readings of the clock, and when the clock moves between them the record
    returned by [GET /api/status] holds two different timestamps. *)
Lemma fresh_status_keys_may_differ :
  let out := api_status renewing_on_ticking_clock fresh in
  disk fresh = Missing /\
  body (response (snd out)) =
    Some (BodyJson (status_json "2025-06-01T09:00:00.999Z" "2025-06-01T09:00:01.000Z")) /\
  ~ (exists T0, body (response (snd out)) = Some (BodyJson (status_json T0 T0))).
Proof.
  repeat split.
  intros (T0 & H). cbn in H. unfold status_json in H.
  injection H as H1 H2. subst T0. discriminate H2.
Qed.

(** C5, amended: on a fresh deployment [GET /api/status] answers with, and
    writes to disk, the record whose [last_emptied] is one reading of the
    clock and whose [last_cleaned] is the next reading; an authenticated POST
    on [/api/status/last_emptied] that finds this record then answers with,
    and writes, the record whose [last_emptied] is the update timestamp and
    whose [last_cleaned] is that second reading. *)
Theorem fresh_status_then_update env w w2 w3 me req :
  disk w = Missing ->
  writable w = true ->
  disk w2 = disk (snd (api_status env w)) ->
  writable w2 = true ->
  getName env w2 = (Ok (Some me), w3) ->
  method req = POST ->
  key req = "last_emptied" ->
  let emptied := now env (ticks w) in
  let cleaned := now env (S (ticks w)) in
  exists w1 w4,
    api_status env w = (Ok tt, w1) /\
    body (response w1) = Some (BodyJson (status_json emptied cleaned)) /\
    disk w1 = Present (Json (status_json emptied cleaned)) /\
    api_status_key env req w2 = (Ok tt, w4) /\
    body (response w4) = Some (BodyJson (status_json update_timestamp cleaned)) /\
    disk w4 = Present (Json (status_json update_timestamp cleaned)).
Proof.
  intros Hd Hw Hd2 Hw2 Hg Hm Hk emptied cleaned.
  assert (H1 := status_read_missing env w Hd Hw). cbv zeta in H1.
  fold emptied cleaned in H1.
  assert (Hfirst : api_status env w =
                   set_body (BodyJson (status_json emptied cleaned))
                     (with_disk (Present (Json (status_json emptied cleaned)))
                        (with_ticks (S (S (ticks w))) w)))
    by (unfold api_status; now rewrite (bind_ok _ _ _ _ _ H1)).
  rewrite Hfirst in Hd2. simpl in Hd2.
  destruct (keeps_getName env w2) as (Hd3 & Hw3 & _).
  rewrite Hg in Hd3, Hw3. simpl in Hd3, Hw3.
  assert (Hnull : status_json emptied cleaned <> JNull) by (intro H; discriminate H).
  assert (Hhas : has (map fst (own_entries (status_json emptied cleaned))) (key req) = true)
    by (rewrite Hk; reflexivity).
  assert (Hsecond := update_status_known_key env req w3 (status_json emptied cleaned)).
  cbv zeta in Hsecond. rewrite Hm, Hk in Hsecond.
  eexists. eexists.
  split; [exact Hfirst |]. split; [reflexivity |]. split; [reflexivity |].
  rewrite (api_status_key_authenticated env req w2 me w3 (or_introl Hm) Hg).
  rewrite Hsecond by congruence.
  split; [reflexivity |]. split; reflexivity.
Qed.

Lemma fresh_status_then_update_witness :
  let env := renewing_on_ticking_clock in
  let w2 := logged_in new_tokens (next_request (snd (api_status env fresh))) in
  exists w1 w4,
    api_status env fresh = (Ok tt, w1) /\
    body (response w1) =
      Some (BodyJson (status_json "2025-06-01T09:00:00.999Z" "2025-06-01T09:00:01.000Z")) /\
    disk w1 =
      Present (Json (status_json "2025-06-01T09:00:00.999Z" "2025-06-01T09:00:01.000Z")) /\
    api_status_key env (post_key "last_emptied") w2 = (Ok tt, w4) /\
    body (response w4) =
      Some (BodyJson (status_json update_timestamp "2025-06-01T09:00:01.000Z")) /\
    disk w4 = Present (Json (status_json update_timestamp "2025-06-01T09:00:01.000Z")).
Proof.
  exact (fresh_status_then_update renewing_on_ticking_clock fresh
           (logged_in new_tokens
              (next_request (snd (api_status renewing_on_ticking_clock fresh))))
           _ _ (post_key "last_emptied")
           eq_refl eq_refl eq_refl eq_refl eq_refl eq_refl eq_refl).
Defined.

(** ** Bounds on provider calls *)

Lemma count_calls_app l1 l2 :
  verifier_calls (l1 ++ l2) = verifier_calls l1 + verifier_calls l2 /\
  refresh_attempts (l1 ++ l2) = refresh_attempts l1 + refresh_attempts l2 /\
  exchange_calls (l1 ++ l2) = exchange_calls l1 + exchange_calls l2.
Proof.
  unfold verifier_calls, refresh_attempts, exchange_calls.
  now rewrite !filter_app, !length_app.
Qed.

Lemma within_silent {A} (m : M A) :
  (forall w, calls (snd (m w)) = calls w) -> calls_within m 0 0 0.
Proof.
  intros H w. exists []. rewrite app_nil_r. split; [apply H |].
  repeat split; apply Nat.le_refl.
Qed.

Lemma within_weaken {A} (m : M A) p r x p' r' x' :
  calls_within m p r x -> p <= p' -> r <= r' -> x <= x' -> calls_within m p' r' x'.
Proof.
  intros H Hp Hr Hx w. destruct (H w) as (made & Hc & H1 & H2 & H3).
  exists made. repeat split; auto; lia.
Qed.

Lemma within_step {A} (m : M A) (w : World) (r1 : result A) (w1 : World) p r x made :
  m w = (r1, w1) ->
  calls w1 = calls w ++ made ->
  verifier_calls made <= p -> refresh_attempts made <= r -> exchange_calls made <= x ->
  forall w2 made2 p2 r2 x2,
    calls w2 = calls w1 ++ made2 ->
    verifier_calls made2 <= p2 -> refresh_attempts made2 <= r2 -> exchange_calls made2 <= x2 ->
    exists made', calls w2 = calls w ++ made' /\
      verifier_calls made' <= p + p2 /\
      refresh_attempts made' <= r + r2 /\
      exchange_calls made' <= x + x2.
Proof.
  intros _ Hc H1 H2 H3 w2 made2 p2 r2 x2 Hc2 H4 H5 H6.
  exists (made ++ made2). rewrite Hc2, Hc, app_assoc. split; [reflexivity |].
  destruct (count_calls_app made made2) as (E1 & E2 & E3). lia.
Qed.

Lemma within_bind {A B} (m : M A) (k : A -> M B) p1 r1 x1 p2 r2 x2 :
  calls_within m p1 r1 x1 ->
  (forall a, calls_within (k a) p2 r2 x2) ->
  calls_within (bind m k) (p1 + p2) (r1 + r2) (x1 + x2).
Proof.
  intros Hm Hk w. unfold bind.
  destruct (Hm w) as (made & Hc & H1 & H2 & H3).
  destruct (m w) as [[a | e] w1] eqn:E; simpl in Hc.
  - destruct (Hk a w1) as (made2 & Hc2 & H4 & H5 & H6).
    exact (within_step m w _ w1 _ _ _ made E Hc H1 H2 H3 _ made2 _ _ _ Hc2 H4 H5 H6).
  - exists made. simpl. repeat split; auto; lia.
Qed.

Lemma within_try_catch {A} (m : M A) (h : error -> M A) p1 r1 x1 p2 r2 x2 :
  calls_within m p1 r1 x1 ->
  (forall e, calls_within (h e) p2 r2 x2) ->
  calls_within (try_catch m h) (p1 + p2) (r1 + r2) (x1 + x2).
Proof.
  intros Hm Hh w. unfold try_catch.
  destruct (Hm w) as (made & Hc & H1 & H2 & H3).
  destruct (m w) as [[a | e] w1] eqn:E; simpl in Hc.
  - exists made. simpl. repeat split; auto; lia.
  - destruct (Hh e w1) as (made2 & Hc2 & H4 & H5 & H6).
    exact (within_step m w _ w1 _ _ _ made E Hc H1 H2 H3 _ made2 _ _ _ Hc2 H4 H5 H6).
Qed.

Lemma within_ret {A} (a : A) : calls_within (ret a) 0 0 0.
Proof. apply within_silent; reflexivity. Qed.

Lemma within_throw {A} e : calls_within (@throw A e) 0 0 0.
Proof. apply within_silent; reflexivity. Qed.

Lemma within_modify f :
  (forall w, calls (f w) = calls w) -> calls_within (modify f) 0 0 0.
Proof. intros H. apply within_silent. exact H. Qed.

Lemma within_getTokens : calls_within getTokens 0 0 0.
Proof. apply within_silent. intros w. now rewrite getTokens_eq. Qed.

Lemma within_get_field v name : calls_within (get_field v name) 0 0 0.
Proof. apply within_silent. intros w. now destruct v. Qed.

Lemma within_reject code msg : calls_within (reject code msg) 0 0 0.
Proof. apply within_silent. reflexivity. Qed.

Lemma within_cookies_delete : calls_within cookies_delete 0 0 0.
Proof. apply within_silent. reflexivity. Qed.

Lemma within_fetchRcApi env bearer : calls_within (fetchRcApi env bearer) 1 0 0.
Proof.
  intros w. exists [EvProfile bearer]. rewrite fetchRcApi_world.
  repeat split; simpl; auto.
Qed.

Lemma within_refreshTokens env token : calls_within (refreshTokens env token) 0 1 0.
Proof.
  intros w. exists [EvRefresh token]. rewrite refreshTokens_eq.
  destruct (refresh env (calls w) token); repeat split; simpl; auto.
Qed.

Lemma within_give_up :
  calls_within (cookies_delete ;; r <- reject 401 "invalid session" ;; ret (Some r)) 0 0 0.
Proof. apply within_silent. reflexivity. Qed.

Lemma within_getName_retry env tokens :
  calls_within (getName_retry env tokens) 1 1 0.
Proof.
  unfold getName_retry.
  apply (within_bind _ _ 0 0 0 1 1 0 (within_get_field _ _)). intros rt.
  apply (within_bind _ _ 0 1 0 1 0 0 (within_refreshTokens _ _)). intros _.
  apply (within_bind _ _ 0 0 0 1 0 0 within_getTokens). intros [newTokens |].
  - apply (within_bind _ _ 0 0 0 1 0 0 (within_get_field _ _)). intros bearer.
    apply (within_bind _ _ 1 0 0 0 0 0 (within_fetchRcApi _ _)). intros [name |].
    + apply within_ret.
    + apply within_give_up.
  - apply (within_weaken _ 0 0 0); auto. apply within_give_up.
Qed.

Lemma within_getName env : calls_within (getName env) 2 1 0.
Proof.
  unfold getName.
  apply (within_bind _ _ 0 0 0 2 1 0 within_getTokens). intros [tokens |].
  - apply (within_bind _ _ 0 0 0 2 1 0 (within_get_field _ _)). intros bearer.
    apply (within_bind _ _ 1 0 0 1 1 0 (within_fetchRcApi _ _)). intros name.
    apply (within_bind _ _ 1 1 0 0 0 0).
    + destruct name; [ | apply within_getName_retry].
      apply (within_weaken _ 0 0 0); auto. apply within_ret.
    + intros [r |]; apply within_ret.
  - apply (within_weaken _ 0 0 0); auto with arith. apply within_reject.
Qed.

Lemma within_set_body b : calls_within (set_body b) 0 0 0.
Proof. apply within_silent. reflexivity. Qed.

Lemma within_redirect target : calls_within (redirect target) 0 0 0.
Proof. apply within_silent. reflexivity. Qed.

Lemma status_read_calls env w : calls (snd (status_read env w)) = calls w.
Proof.
  unfold status_read, try_catch, bind, Deno_readTextFile.
  destruct (disk w) as [| [v | raw] |]; simpl; auto.
  unfold Date_now, Deno_mkdir, Deno_writeTextFile, with_ticks. cbn.
  destruct (writable w); reflexivity.
Qed.

Lemma within_status_read env : calls_within (status_read env) 0 0 0.
Proof. apply within_silent. apply status_read_calls. Qed.

Lemma within_status_write data : calls_within (status_write data) 0 0 0.
Proof.
  apply within_silent. intros w. unfold status_write, Deno_writeTextFile.
  now destruct (writable w).
Qed.

Lemma within_Object_keys v : calls_within (Object_keys v) 0 0 0.
Proof. apply within_silent. intros w. now destruct v. Qed.

Lemma within_update_status env req : calls_within (update_status env req) 0 0 0.
Proof.
  unfold update_status.
  apply (within_bind _ _ 0 0 0 0 0 0 (within_status_read _)). intros cur.
  apply (within_bind _ _ 0 0 0 0 0 0 (within_Object_keys _)). intros keys.
  destruct (negb (has keys (key req))).
  - apply within_silent. reflexivity.
  - apply (within_bind _ _ 0 0 0 0 0 0 (within_status_write _)). intros _.
    destruct (method req); try apply within_ret; try apply within_redirect.
    apply (within_bind _ _ 0 0 0 0 0 0 (within_status_read _)). intros st.
    apply within_set_body.
Qed.

(** X1: whatever the provider answers and however the request ends, a
    request on [/api/me] or on [/api/status/:key] makes at most two profile
    lookups and one refresh exchange, and never a code exchange. *)
Theorem identity_routes_call_bound env req w :
  (exists made,
     calls (snd (api_me env w)) = calls w ++ made /\
     verifier_calls made <= 2 /\ refresh_attempts made <= 1 /\ exchange_calls made = 0) /\
  (exists made,
     calls (snd (api_status_key env req w)) = calls w ++ made /\
     verifier_calls made <= 2 /\ refresh_attempts made <= 1 /\ exchange_calls made = 0).
Proof.
  assert (Hme : calls_within (api_me env) 2 1 0).
  { unfold api_me.
    apply (within_bind _ _ 2 1 0 0 0 0 (within_getName env)). intros [me |].
    - apply within_set_body.
    - apply within_ret. }
  assert (Hkey : calls_within (api_status_key env req) 2 1 0).
  { unfold api_status_key.
    assert (Hauth : calls_within
              (me <- getName env ;;
               match me, method req with
               | None, GET => redirect "/api/login"
               | None, POST => ret tt
               | _, _ => update_status env req
               end) 2 1 0).
    { apply (within_bind _ _ 2 1 0 0 0 0 (within_getName env)). intros [me |].
      - destruct (method req); apply within_update_status.
      - destruct (method req); try apply within_update_status;
          [apply within_redirect | apply within_ret]. }
    destruct (method req); try exact Hauth; apply (within_weaken _ 0 0 0); auto with arith;
      apply within_silent; reflexivity. }
  split.
  - destruct (Hme w) as (made & Hc & H1 & H2 & H3). exists made.
    repeat split; auto. lia.
  - destruct (Hkey w) as (made & Hc & H1 & H2 & H3). exists made.
    repeat split; auto. lia.
Qed.

(** ** More on the verifier and on resolveIdentity *)

(** X2: a request on [/api/me] never reads or writes the status file, never
    reads the clock and never touches the session, however it ends. *)
Theorem api_me_leaves_store_alone env w :
  same_store w (snd (api_me env w)).
Proof.
  revert w. change (keeps_store (api_me env)). unfold api_me.
  apply keeps_bind; [apply keeps_getName |].
  intros [me |]; auto with keeps.
Qed.

(** X3: [fetchRcApi] returns [false] exactly when the provider answers with
    a status other than 200, and returns a profile exactly when the provider
    answers 200 with a JSON payload other than [null]; the profile then holds
    the payload's [first_name].  In every other case it throws. *)
Theorem fetchRcApi_result_characterised env bearer w me :
  (fst (fetchRcApi env bearer w) = Ok None <->
   exists code payload,
     profile env (calls w) bearer = Fetched code payload /\ code <> 200%nat) /\
  (fst (fetchRcApi env bearer w) = Ok (Some me) <->
   exists payload,
     profile env (calls w) bearer = Fetched 200 (Json payload) /\
     payload <> JNull /\ me = mkMe (field_of payload "first_name")).
Proof.
  unfold fetchRcApi, fetch_profile, bind.
  destruct (profile env (calls w) bearer) as [| code payload]; simpl.
  - split; split; try (intros H; discriminate H).
    + intros (c & p & H & _); discriminate H.
    + intros (p & H & _); discriminate H.
  - destruct (Nat.eqb code 200) eqn:Ecode.
    + apply Nat.eqb_eq in Ecode. subst code. split; split.
      * destruct payload as [[] | raw]; simpl; intros H; discriminate H.
      * intros (c & p & H & Hne). inversion H; subst. now elim Hne.
      * destruct payload as [v | raw]; [ | intros H; discriminate H].
        intros H. exists v.
        destruct v; simpl in H; try (inversion H; subst me;
          repeat split; auto; intro H'; discriminate H').
      * intros (p & H & Hne & ->). inversion H; subst.
        destruct p; simpl; try reflexivity. now elim Hne.
    + apply Nat.eqb_neq in Ecode. split; split.
      * intros _. now exists code, payload.
      * reflexivity.
      * intros H; discriminate H.
      * intros (p & H & _). inversion H; subst. now elim Ecode.
Qed.

(** X4: when the stored access token is accepted at once (200 with a JSON
    payload other than [null]), [getName] returns the profile after that one
    lookup, without refresh and without touching cookie or response, and
    [GET /api/me] answers with the profile as body and no status of its own. *)
Theorem getName_accepted_token_returns_name env w tokens payload :
  cookie w = Some (Json tokens) ->
  tokens <> JNull ->
  profile env (calls w) (field_of tokens "accessToken") = Fetched 200 (Json payload) ->
  payload <> JNull ->
  let me := mkMe (field_of payload "first_name") in
  let w' := with_calls (calls w ++ [EvProfile (field_of tokens "accessToken")]) w in
  getName env w = (Ok (Some me), w') /\
  api_me env w =
    (Ok tt,
     with_response
       (mkResponse (status (response w)) (Some (BodyMe me)) (location (response w))) w').
Proof.
  intros Hc Hn Hp Hpay me w'.
  assert (Hf : fetchRcApi env (field_of tokens "accessToken") w = (Ok (Some me), w')).
  { unfold fetchRcApi, fetch_profile, bind. rewrite Hp. simpl.
    destruct payload; try reflexivity. now elim Hpay. }
  assert (Hg : getName env w = (Ok (Some me), w')).
  { rewrite (getName_with_credential env w tokens Hc Hn).
    now rewrite (bind_ok _ _ _ _ _ Hf). }
  split; [exact Hg |].
  unfold api_me. now rewrite (bind_ok _ _ _ _ _ Hg).
Qed.

Lemma getName_accepted_token_returns_name_witness :
  let w := logged_in new_tokens fresh in
  getName renewing w =
    (Ok (Some (mkMe (Some (JStr "Ada")))),
     with_calls [EvProfile (Some (JStr "new-access"))] w) /\
  sent_status (response (snd (api_me renewing w))) = 200%nat.
Proof.
  assert (Hnull : tokens_json new_tokens <> JNull) by (intro H; discriminate H).
  assert (Hada : ada <> JNull) by (intro H; discriminate H).
  destruct (getName_accepted_token_returns_name renewing (logged_in new_tokens fresh)
              (tokens_json new_tokens) ada eq_refl Hnull eq_refl Hada)
    as (Hg & Hme).
  split; [exact Hg |]. rewrite Hme. reflexivity.
Defined.

(** X5: an exception thrown by the first verification (the provider not
    reachable, a 200 whose payload is not JSON or is [null]) leaves [getName]
    and [GET /api/me] as it is: no refresh is attempted, no 401 is prepared
    and the cookie stays. *)
Theorem getName_first_verification_exception_propagates env w tokens e w1 :
  cookie w = Some (Json tokens) ->
  tokens <> JNull ->
  fetchRcApi env (field_of tokens "accessToken") w = (Throw e, w1) ->
  getName env w = (Throw e, w1) /\
  api_me env w = (Throw e, w1) /\
  w1 = with_calls (calls w ++ [EvProfile (field_of tokens "accessToken")]) w.
Proof.
  intros Hc Hn Hf.
  assert (Hg : getName env w = (Throw e, w1)).
  { rewrite (getName_with_credential env w tokens Hc Hn).
    now rewrite (bind_throw _ _ _ _ _ Hf). }
  split; [exact Hg |].
  split; [unfold api_me; now rewrite (bind_throw _ _ _ _ _ Hg) |].
  rewrite <- (fetchRcApi_world env (field_of tokens "accessToken") w).
  now rewrite Hf.
Qed.

Lemma getName_first_verification_exception_propagates_witness :
  let w := logged_in old_tokens fresh in
  getName unreachable w =
    (Throw FetchFailed, with_calls [EvProfile (Some (JStr "old-access"))] w) /\
  cookie (snd (api_me unreachable w)) = Some (Json (tokens_json old_tokens)) /\
  response (snd (api_me unreachable w)) = empty_response.
Proof.
  assert (Hnull : tokens_json old_tokens <> JNull) by (intro H; discriminate H).
  destruct (getName_first_verification_exception_propagates unreachable
              (logged_in old_tokens fresh) (tokens_json old_tokens) FetchFailed
              (with_calls [EvProfile (Some (JStr "old-access"))] (logged_in old_tokens fresh))
              eq_refl Hnull eq_refl)
    as (Hg & Hme & _).
  split; [exact Hg |]. rewrite Hme. split; reflexivity.
Defined.

(** X6: a cookie whose value is the JSON [null] is not taken for a missing
    cookie: [getName] throws a [TypeError] on reading its [accessToken],
    before any provider call and without preparing a response. *)
Theorem getName_null_cookie_throws env w :
  cookie w = Some (Json JNull) ->
  getName env w = (Throw TypeError, w) /\
  api_me env w = (Throw TypeError, w).
Proof.
  intros Hc.
  assert (Ht : getTokens w = (Ok (Some JNull), w)) by (rewrite getTokens_eq, Hc; reflexivity).
  assert (Hg : getName env w = (Throw TypeError, w))
    by (unfold getName; now rewrite (bind_ok _ _ _ _ _ Ht)).
  split; [exact Hg |]. unfold api_me. now rewrite (bind_throw _ _ _ _ _ Hg).
Qed.

Lemma getName_null_cookie_throws_witness :
  getName renewing (with_cookie (Some (Json JNull)) fresh) =
    (Throw TypeError, with_cookie (Some (Json JNull)) fresh).
Proof.
  exact (proj1 (getName_null_cookie_throws renewing
                  (with_cookie (Some (Json JNull)) fresh) eq_refl)).
Defined.

(** ** More on the Token Store *)

(** X7: when the provider renews the refresh token, [refreshTokens] returns
    the cookie map and the cookie holds the new bundle and nothing of the
    old value; disk, clock, session and response are untouched. *)
Theorem refreshTokens_success_replaces_cookie env token w t :
  refresh env (calls w) token = Some t ->
  exists w',
    refreshTokens env token w = (Ok true, w') /\
    cookie w' = Some (Json (tokens_json t)) /\
    calls w' = calls w ++ [EvRefresh token] /\
    same_store w w' /\
    response w' = response w.
Proof.
  intros H. rewrite refreshTokens_eq, H.
  eexists. split; [reflexivity |]. repeat split; reflexivity.
Qed.

Lemma refreshTokens_success_replaces_cookie_witness :
  exists w',
    refreshTokens renewing (Some (JStr "old-refresh")) (logged_in old_tokens fresh) =
      (Ok true, w') /\
    cookie w' = Some (Json (tokens_json new_tokens)).
Proof.
  destruct (refreshTokens_success_replaces_cookie renewing (Some (JStr "old-refresh"))
              (logged_in old_tokens fresh) new_tokens eq_refl)
    as (w' & Hr & Hc & _).
  exists w'. split; [exact Hr | exact Hc].
Defined.

(** ** More on the Status Record Store *)

Lemma status_read_missing_readonly env w :
  disk w = Missing ->
  writable w = false ->
  status_read env w = (Throw PermissionDenied, with_ticks (S (S (ticks w))) w).
Proof.
  intros Hd Hw. unfold status_read, try_catch, bind, Deno_readTextFile.
  rewrite Hd. unfold Date_now, Deno_mkdir, Deno_writeTextFile, with_ticks.
  cbn. rewrite Hw. reflexivity.
Qed.

Lemma status_read_corrupt env w raw :
  disk w = Present (NotJson raw) -> status_read env w = (Throw SyntaxError, w).
Proof.
  intros H. unfold status_read, try_catch, bind, Deno_readTextFile. now rewrite H.
Qed.

Lemma status_read_unreadable env w :
  disk w = Unreadable -> status_read env w = (Throw PermissionDenied, w).
Proof.
  intros H. unfold status_read, try_catch, bind, Deno_readTextFile. now rewrite H.
Qed.

Lemma assign_idem k v fields :
  assign k v (assign k v fields) = assign k v fields.
Proof.
  induction fields as [| [k0 v0] rest IH]; simpl.
  - now rewrite String.eqb_refl.
  - destruct (String.eqb k k0) eqn:E; simpl; rewrite E; [reflexivity | now rewrite IH].
Qed.

(** X9: [status.read] is idempotent: once it has returned a record, reading
    again returns the same record and changes nothing, and the file holds
    that record.  This covers the first read, which creates the file. *)
Theorem status_read_idempotent env w v w' :
  status_read env w = (Ok v, w') ->
  status_read env w' = (Ok v, w') /\ disk w' = Present (Json v).
Proof.
  intros H.
  assert (Hd : disk w' = Present (Json v)).
  { destruct (disk w) as [| [v0 | raw] |] eqn:Hd.
    - destruct (writable w) eqn:Hw.
      + rewrite (status_read_missing env w Hd Hw) in H. inversion H. reflexivity.
      + rewrite (status_read_missing_readonly env w Hd Hw) in H. discriminate H.
    - rewrite (status_read_present env w v0 Hd) in H. inversion H; subst. exact Hd.
    - rewrite (status_read_corrupt env w raw Hd) in H. discriminate H.
    - rewrite (status_read_unreadable env w Hd) in H. discriminate H. }
  split; [exact (status_read_present env w' v Hd) | exact Hd].
Qed.

Lemma status_read_idempotent_witness :
  let first := status_read renewing_on_ticking_clock fresh in
  status_read renewing_on_ticking_clock (snd first) =
    (Ok (status_json "2025-06-01T09:00:00.999Z" "2025-06-01T09:00:01.000Z"), snd first).
Proof.
  exact (proj1 (status_read_idempotent renewing_on_ticking_clock fresh _ _ eq_refl)).
Defined.

(** X10: only a missing file is initialised.  When a file exists,
    [GET /api/status] never writes it and never reads the clock; a file that
    is not JSON makes the request end with a [SyntaxError], a file that cannot
    be read with the storage error, and in both cases nothing changes. *)
Theorem api_status_never_repairs_file env w :
  disk w <> Missing ->
  disk (snd (api_status env w)) = disk w /\
  ticks (snd (api_status env w)) = ticks w /\
  (forall raw, disk w = Present (NotJson raw) -> api_status env w = (Throw SyntaxError, w)) /\
  (disk w = Unreadable -> api_status env w = (Throw PermissionDenied, w)).
Proof.
  intros Hne. unfold api_status.
  destruct (disk w) as [| [v | raw] |] eqn:Hd; [now elim Hne | | |].
  - rewrite (bind_ok _ _ _ _ _ (status_read_present env w v Hd)). simpl.
    repeat split; auto; intros; discriminate.
  - rewrite (bind_throw _ _ _ _ _ (status_read_corrupt env w raw Hd)). simpl.
    repeat split; auto; intros; discriminate.
  - rewrite (bind_throw _ _ _ _ _ (status_read_unreadable env w Hd)). simpl.
    repeat split; auto; intros; discriminate.
Qed.

Lemma api_status_never_repairs_file_witness :
  let w := with_disk (Present (NotJson "last_emptied=")) fresh in
  api_status renewing w = (Throw SyntaxError, w).
Proof.
  assert (Hne : disk (with_disk (Present (NotJson "last_emptied=")) fresh) <> Missing)
    by (intro H; discriminate H).
  destruct (api_status_never_repairs_file renewing
              (with_disk (Present (NotJson "last_emptied=")) fresh) Hne)
    as (_ & _ & Hcorrupt & _).
  exact (Hcorrupt _ eq_refl).
Defined.

(** X11: on a fresh deployment whose storage refuses writes,
    [GET /api/status] ends with the storage error after its two clock
    readings: no file is created and no body is set. *)
Theorem api_status_fresh_readonly_fails env w :
  disk w = Missing ->
  writable w = false ->
  api_status env w = (Throw PermissionDenied, with_ticks (S (S (ticks w))) w) /\
  disk (snd (api_status env w)) = Missing /\
  response (snd (api_status env w)) = response w.
Proof.
  intros Hd Hw. unfold api_status.
  rewrite (bind_throw _ _ _ _ _ (status_read_missing_readonly env w Hd Hw)).
  simpl. auto.
Qed.

Lemma api_status_fresh_readonly_fails_witness :
  let w := mkWorld None None Missing false 0 [] empty_response in
  fst (api_status renewing w) = Throw PermissionDenied /\
  disk (snd (api_status renewing w)) = Missing.
Proof.
  destruct (api_status_fresh_readonly_fails renewing
              (mkWorld None None Missing false 0 [] empty_response) eq_refl eq_refl)
    as (Hrun & Hdisk & _).
  cbv zeta. rewrite Hrun. split; [reflexivity | reflexivity].
Defined.

(** X12: [GET /api/status] asks for no credential: it makes no provider
    call and leaves cookie and session alone, and what it returns and does
    to the rest of the world does not depend on the cookie. *)
Theorem api_status_ignores_credentials env c w :
  same_session w (snd (api_status env w)) /\
  api_status env (with_cookie c w) =
    (fst (api_status env w), with_cookie c (snd (api_status env w))).
Proof.
  unfold api_status, same_session.
  destruct (disk w) as [| [v | raw] |] eqn:Hd.
  - destruct (writable w) eqn:Hw.
    + rewrite (bind_ok _ _ _ _ _ (status_read_missing env w Hd Hw)).
      rewrite (bind_ok _ _ _ _ _ (status_read_missing env (with_cookie c w) Hd Hw)).
      simpl. auto.
    + rewrite (bind_throw _ _ _ _ _ (status_read_missing_readonly env w Hd Hw)).
      rewrite (bind_throw _ _ _ _ _ (status_read_missing_readonly env (with_cookie c w) Hd Hw)).
      simpl. auto.
  - rewrite (bind_ok _ _ _ _ _ (status_read_present env w v Hd)).
    rewrite (bind_ok _ _ _ _ _ (status_read_present env (with_cookie c w) v Hd)).
    simpl. auto.
  - rewrite (bind_throw _ _ _ _ _ (status_read_corrupt env w raw Hd)).
    rewrite (bind_throw _ _ _ _ _ (status_read_corrupt env (with_cookie c w) raw Hd)).
    simpl. auto.
  - rewrite (bind_throw _ _ _ _ _ (status_read_unreadable env w Hd)).
    rewrite (bind_throw _ _ _ _ _ (status_read_unreadable env (with_cookie c w) Hd)).
    simpl. auto.
Qed.

(** ** More on [/api/status/:key] *)

Lemma update_status_readonly env req w cur :
  disk w = Present (Json cur) ->
  cur <> JNull ->
  has (map fst (own_entries cur)) (key req) = true ->
  writable w = false ->
  update_status env req w = (Throw PermissionDenied, w).
Proof.
  intros Hd Hn Hk Hw. unfold update_status.
  rewrite (bind_ok _ _ _ _ _ (status_read_present env w cur Hd)).
  rewrite (bind_ok _ _ _ _ _ (Object_keys_ok cur w Hn)).
  rewrite Hk. change (negb true) with false. cbv iota.
  assert (Hwrite : status_write (spread_with cur (key req) (JStr update_timestamp)) w =
                   (Throw PermissionDenied, w)).
  { unfold status_write, Deno_writeTextFile. now rewrite Hw. }
  now rewrite (bind_throw _ _ _ _ _ Hwrite).
Qed.

(** The update never changes the key set of the stored value. *)
Lemma update_status_keeps_keys env req w cur :
  disk w = Present (Json cur) ->
  cur <> JNull ->
  exists cur',
    disk (snd (update_status env req w)) = Present (Json cur') /\
    map fst (own_entries cur') = map fst (own_entries cur).
Proof.
  intros Hd Hn.
  destruct (has (map fst (own_entries cur)) (key req)) eqn:Hk.
  - destruct (writable w) eqn:Hw.
    + assert (H := update_status_known_key env req w cur Hd Hn Hk Hw). cbv zeta in H.
      exists (spread_with cur (key req) (JStr update_timestamp)).
      split; [rewrite H; destruct (method req); reflexivity |].
      simpl. now apply keys_assign_present.
    + rewrite (update_status_readonly env req w cur Hd Hn Hk Hw).
      exists cur. split; [exact Hd | reflexivity].
  - rewrite (update_status_unknown_key env req w cur Hd Hn Hk).
    exists cur. split; [exact Hd | reflexivity].
Qed.

(** X13: the key set is closed under the endpoint: whatever the method, the
    credential, the key and the provider's answers, and however the request
    ends, a request on [/api/status/:key] that finds a stored value leaves a
    stored value with exactly the same keys. *)
Theorem api_status_key_keeps_key_set env req w cur :
  disk w = Present (Json cur) ->
  cur <> JNull ->
  exists cur',
    disk (snd (api_status_key env req w)) = Present (Json cur') /\
    map fst (own_entries cur') = map fst (own_entries cur).
Proof.
  intros Hd Hn.
  assert (Hauth : exists cur',
            disk (snd ((me <- getName env ;;
                        match me, method req with
                        | None, GET => redirect "/api/login"
                        | None, POST => ret tt
                        | _, _ => update_status env req
                        end) w)) = Present (Json cur') /\
            map fst (own_entries cur') = map fst (own_entries cur)).
  { destruct (keeps_getName env w) as (Hd1 & _).
    unfold bind at 1.
    destruct (getName env w) as [[[me |] | e] w1]; simpl in Hd1.
    - assert (Hupd := update_status_keeps_keys env req w1 cur).
      destruct (method req); apply Hupd; congruence.
    - assert (Hupd := update_status_keeps_keys env req w1 cur).
      destruct (method req); try (apply Hupd; congruence);
        exists cur; split; [simpl; congruence | reflexivity | simpl; congruence | reflexivity].
    - exists cur. split; [simpl; congruence | reflexivity]. }
  unfold api_status_key.
  destruct (method req); try exact Hauth; exists cur; split; auto.
Qed.

Lemma api_status_key_keeps_key_set_witness :
  exists cur',
    disk (snd (api_status_key renewing (post_key "last_cleaned")
                 (stored june june (logged_in new_tokens fresh)))) = Present (Json cur') /\
    map fst (own_entries cur') = ["last_emptied"; "last_cleaned"].
Proof.
  assert (Hnull : status_json june june <> JNull) by (intro H; discriminate H).
  exact (api_status_key_keeps_key_set renewing (post_key "last_cleaned")
           (stored june june (logged_in new_tokens fresh)) (status_json june june)
           eq_refl Hnull).
Defined.

(** X14: an accepted update is idempotent: a second authenticated request
    with the same key, finding what the first one wrote, writes the very same
    record again. *)
Theorem accepted_update_twice_is_once env req w w1 me cur w2 w3 me2 :
  method req = POST \/ method req = GET ->
  getName env w = (Ok (Some me), w1) ->
  disk w = Present (Json cur) ->
  cur <> JNull ->
  has (map fst (own_entries cur)) (key req) = true ->
  writable w = true ->
  disk w2 = disk (snd (api_status_key env req w)) ->
  writable w2 = true ->
  getName env w2 = (Ok (Some me2), w3) ->
  fst (api_status_key env req w2) = Ok tt /\
  disk (snd (api_status_key env req w2)) = disk w2 /\
  disk w2 = Present (Json (spread_with cur (key req) (JStr update_timestamp))).
Proof.
  intros Hm Hg Hd Hn Hk Hw Hd2 Hw2 Hg2.
  set (written := spread_with cur (key req) (JStr update_timestamp)) in *.
  destruct (keeps_getName env w) as (Hd1 & Hw1 & _).
  rewrite Hg in Hd1, Hw1. simpl in Hd1, Hw1.
  destruct (keeps_getName env w2) as (Hd3 & Hw3 & _).
  rewrite Hg2 in Hd3, Hw3. simpl in Hd3, Hw3.
  assert (Hfirst : disk (snd (api_status_key env req w)) = Present (Json written)).
  { rewrite (api_status_key_authenticated env req w me w1 Hm Hg).
    rewrite (update_status_known_key env req w1 cur) by congruence.
    destruct Hm as [Hm | Hm]; rewrite Hm; reflexivity. }
  rewrite Hfirst in Hd2.
  assert (Hn2 : written <> JNull) by (intro H; discriminate H).
  assert (Hk2 : has (map fst (own_entries written)) (key req) = true).
  { unfold written. simpl. now rewrite keys_assign_present. }
  assert (Hsame : spread_with written (key req) (JStr update_timestamp) = written).
  { unfold written, spread_with. simpl. now rewrite assign_idem. }
  rewrite (api_status_key_authenticated env req w2 me2 w3 Hm Hg2).
  rewrite (update_status_known_key env req w3 written) by congruence.
  rewrite Hsame, Hd2.
  destruct Hm as [Hm | Hm]; rewrite Hm; repeat split; reflexivity.
Qed.

Lemma accepted_update_twice_is_once_witness :
  let first := api_status_key renewing (post_key "last_cleaned")
                 (stored june june (logged_in new_tokens fresh)) in
  disk (snd (api_status_key renewing (post_key "last_cleaned") (next_request (snd first)))) =
    Present (Json (status_json june update_timestamp)).
Proof.
  assert (Hnull : status_json june june <> JNull) by (intro H; discriminate H).
  destruct (accepted_update_twice_is_once renewing (post_key "last_cleaned")
              (stored june june (logged_in new_tokens fresh)) _ _ (status_json june june)
              (next_request
                 (snd (api_status_key renewing (post_key "last_cleaned")
                         (stored june june (logged_in new_tokens fresh)))))
              _ _ (or_introl eq_refl) eq_refl eq_refl Hnull eq_refl eq_refl
              eq_refl eq_refl eq_refl)
    as (_ & Hsame & _).
  cbv zeta. rewrite Hsame. reflexivity.
Defined.

(** X15: a method other than GET and POST is answered 405 at once: no
    identity check, no provider call, no access to the status file, and the
    rest of the response as it was. *)
Theorem other_methods_are_refused env req w :
  method req <> POST ->
  method req <> GET ->
  api_status_key env req w =
    (Ok tt,
     with_response
       (mkResponse (Some 405%nat) (body (response w)) (location (response w))) w).
Proof.
  intros Hp Hg. unfold api_status_key.
  destruct (method req); try reflexivity; [now elim Hg | now elim Hp].
Qed.

Lemma other_methods_are_refused_witness :
  let w := stored june june (logged_in new_tokens fresh) in
  sent_status (response (snd (api_status_key renewing (put_key "last_cleaned") w))) = 405%nat /\
  calls (snd (api_status_key renewing (put_key "last_cleaned") w)) = [] /\
  disk (snd (api_status_key renewing (put_key "last_cleaned") w)) = disk w.
Proof.
  assert (Hp : method (put_key "last_cleaned") <> POST) by (intro H; discriminate H).
  assert (Hg : method (put_key "last_cleaned") <> GET) by (intro H; discriminate H).
  cbv zeta.
  rewrite (other_methods_are_refused renewing (put_key "last_cleaned")
             (stored june june (logged_in new_tokens fresh)) Hp Hg).
  repeat split; reflexivity.
Defined.

(** X16: when [getName] returns [false], a GET on [/api/status/:key]
    redirects to [/api/login]: the Location is set, the redirect note replaces
    whatever body [getName] had prepared, and the status file is as before.
    Without cookie the 401 of [getName] is replaced by a 302. *)
Theorem unauthenticated_get_redirects_to_login env req w w1 :
  method req = GET ->
  getName env w = (Ok None, w1) ->
  exists w',
    api_status_key env req w = (Ok tt, w') /\
    location (response w') = Some "/api/login" /\
    body (response w') = Some (BodyRedirect "/api/login") /\
    disk w' = disk w /\
    calls w' = calls w1 /\
    (cookie w = None -> status (response w') = Some 302%nat).
Proof.
  intros Hm Hg.
  destruct (keeps_getName env w) as (Hd & _). rewrite Hg in Hd. simpl in Hd.
  exists (snd (redirect "/api/login" w1)).
  split; [unfold api_status_key; rewrite Hm; now rewrite (bind_ok _ _ _ _ _ Hg) |].
  repeat split; auto.
  intros Hc.
  assert (Ht : getTokens w = (Ok None, w)) by (rewrite getTokens_eq, Hc; reflexivity).
  unfold getName in Hg. rewrite (bind_ok _ _ _ _ _ Ht), reject_eq in Hg.
  inversion Hg. reflexivity.
Qed.

Lemma unauthenticated_get_redirects_to_login_witness :
  exists w',
    api_status_key renewing (get_key "last_cleaned") (stored june june fresh) = (Ok tt, w') /\
    location (response w') = Some "/api/login" /\
    status (response w') = Some 302%nat /\
    disk w' = Present (Json (status_json june june)).
Proof.
  destruct (unauthenticated_get_redirects_to_login renewing (get_key "last_cleaned")
              (stored june june fresh) _ eq_refl eq_refl)
    as (w' & Hrun & Hloc & _ & Hdisk & _ & Hstatus).
  exists w'. repeat split; auto.
Defined.

(** ** Login, callback and logout *)

(** X17: with a pending verifier and a provider that accepts the exchange,
    the callback makes exactly one exchange, with the request URL and that
    verifier, stores the bundle as the cookie, consumes the verifier and
    redirects to the root with a 302; the status file is not touched. *)
Theorem api_callback_success env req w verifier t :
  pending w = Some (JStr verifier) ->
  exchange env (calls w) (url req) verifier = Some t ->
  exists w',
    api_callback env req w = (Ok tt, w') /\
    cookie w' = Some (Json (tokens_json t)) /\
    calls w' = calls w ++ [EvExchange (url req) verifier] /\
    pending w' = None /\
    location (response w') = Some "/" /\
    (status (response w) = None -> status (response w') = Some 302%nat) /\
    disk w' = disk w.
Proof.
  intros Hv Hx.
  unfold api_callback, session_get_codeVerifier, bind. rewrite Hv.
  unfold oauth_getToken. cbn. rewrite Hx. cbn.
  eexists. split; [reflexivity |]. cbn. repeat split.
  intros Hs. now rewrite Hs.
Qed.

Lemma api_callback_success_witness :
  exists w',
    api_callback renewing callback_request awaiting_callback = (Ok tt, w') /\
    cookie w' = Some (Json (tokens_json new_tokens)) /\
    pending w' = None /\
    sent_status (response w') = 302%nat.
Proof.
  destruct (api_callback_success renewing callback_request awaiting_callback
              "verifier-1" new_tokens eq_refl eq_refl)
    as (w' & Hrun & Hc & _ & Hp & _ & Hs & _).
  exists w'. repeat split; auto.
  unfold sent_status. now rewrite (Hs eq_refl).
Defined.

(** X18: a callback that finds no pending verifier, or one that is not a
    string, throws "invalid codeVerifier" before any provider call: no
    exchange is made, no cookie is written and no redirect is prepared. *)
Theorem api_callback_without_verifier env req w :
  (forall verifier, pending w <> Some (JStr verifier)) ->
  api_callback env req w = (Throw (Error "invalid codeVerifier"), with_pending None w).
Proof.
  intros Hv. unfold api_callback, session_get_codeVerifier, bind.
  destruct (pending w) as [[] |]; try reflexivity.
  now elim (Hv s).
Qed.

Lemma api_callback_without_verifier_witness :
  api_callback renewing callback_request (logged_in old_tokens fresh) =
    (Throw (Error "invalid codeVerifier"), logged_in old_tokens fresh).
Proof.
  assert (Hv : forall verifier, pending (logged_in old_tokens fresh) <> Some (JStr verifier))
    by (intros verifier H; discriminate H).
  exact (api_callback_without_verifier renewing callback_request
           (logged_in old_tokens fresh) Hv).
Defined.

Lemma api_callback_consumes_verifier env req w :
  pending (snd (api_callback env req w)) = None.
Proof.
  unfold api_callback, session_get_codeVerifier, bind.
  destruct (pending w) as [[] |]; try reflexivity.
  unfold oauth_getToken. cbn.
  destruct (exchange env (calls w) (url req) s); reflexivity.
Qed.

Lemma api_callback_nothing_pending env req w :
  pending w = None ->
  api_callback env req w = (Throw (Error "invalid codeVerifier"), w).
Proof.
  destruct w as [c p d wr t l r]. simpl. intros ->. reflexivity.
Qed.

Lemma api_callback_calls env req w verifier :
  pending w = Some (JStr verifier) ->
  calls (snd (api_callback env req w)) = calls w ++ [EvExchange (url req) verifier].
Proof.
  intros Hv. unfold api_callback, session_get_codeVerifier, bind. rewrite Hv.
  unfold oauth_getToken. cbn.
  destruct (exchange env (calls w) (url req) verifier); reflexivity.
Qed.

(** X19: login and callback compose: the verifier that [/api/login] flashes
    is the one the next callback hands to the exchange, whatever was pending
    before; and a callback replayed afterwards finds no verifier and throws,
    whether the first one succeeded or not. *)
Theorem login_then_callback env uri verifier req w :
  let after_login := next_request (snd (api_login uri verifier w)) in
  let after_callback := next_request (snd (api_callback env req after_login)) in
  fst (api_login uri verifier w) = Ok tt /\
  location (response (snd (api_login uri verifier w))) = Some uri /\
  calls (snd (api_callback env req after_login)) =
    calls w ++ [EvExchange (url req) verifier] /\
  api_callback env req after_callback =
    (Throw (Error "invalid codeVerifier"), after_callback).
Proof.
  cbv zeta. split; [reflexivity |]. split; [reflexivity |].
  split.
  - now rewrite (api_callback_calls env req _ verifier).
  - apply api_callback_nothing_pending.
    exact (api_callback_consumes_verifier env req _).
Qed.

Lemma login_then_callback_witness :
  calls (snd (api_callback renewing callback_request
                (next_request (snd (api_login authorize_uri "verifier-2" fresh))))) =
    [EvExchange (url callback_request) "verifier-2"].
Proof.
  destruct (login_then_callback renewing authorize_uri "verifier-2" callback_request fresh)
    as (_ & _ & Hcalls & _).
  exact Hcalls.
Defined.

(** X20: logout never fails and never calls the provider; it removes cookie
    and pending verifier, redirects to the root and leaves the status file
    alone, also when nobody was logged in.  The next [GET /api/me] is
    answered 401 "not logged in" without any provider call. *)
Theorem logout_then_me env w :
  let after_logout := next_request (snd (api_logout w)) in
  fst (api_logout w) = Ok tt /\
  location (response (snd (api_logout w))) = Some "/" /\
  cookie after_logout = None /\
  pending after_logout = None /\
  disk after_logout = disk w /\
  calls after_logout = calls w /\
  api_me env after_logout = (Ok tt, rejected "not logged in" after_logout) /\
  sent_status (response (snd (api_me env after_logout))) = 401%nat.
Proof.
  cbv zeta. repeat split.
Qed.
